(** * youtube-mcp-server: a model of [stdio_server.py]

    The server exposes one tool, [get_youtube_video_transcript].  This file
    embeds its functions

      - [_extract_video_id]   (two regular expressions tried in order),
      - [_format_time]        (seconds to MM:SS or HH:MM:SS),
      - [get_video_details]   (YouTube Data API call with defaults),
      - [get_youtube_video_transcript] (transcript, else details, else error),
      - [handle_call_tool]    (the tool-call boundary),

    and states the properties of the specification against them.

    Conventions.  A Python [str] is a Rocq [string], one [ascii] per code
    point.  A Python [float] is an IEEE-754 value of [SpecFloat.spec_float].
    Python values that travel through dictionaries are [pyval].  Code that
    may raise returns an [outcome]; code that also logs or calls a backend
    runs in the monad [M], which threads the list of effects performed so
    far. *)

From Stdlib Require Import ZArith List Bool Lia Arith.
From Stdlib Require Import Strings.String Strings.Ascii.
From Stdlib Require Import Floats.SpecFloat.
From Stdlib Require Import QArith.

Import ListNotations.
Close Scope Q_scope.
Open Scope string_scope.
Set Warnings "-register-all".
Set Default Proof Using "Type".

(* ================================================================== *)
(** * Strings *)

Module Str.

(** [strip_prefix t s] removes the literal [t] from the front of [s]. *)
Fixpoint strip_prefix (t s : string) : option string :=
  match t with
  | EmptyString => Some s
  | String a t' =>
      match s with
      | EmptyString => None
      | String b s' => if Ascii.eqb a b then strip_prefix t' s' else None
      end
  end.

(** [take n s] is the first [n] characters of [s] (all of [s] if shorter). *)
Fixpoint take (n : nat) (s : string) : string :=
  match n, s with
  | O, _ => EmptyString
  | S _, EmptyString => EmptyString
  | S n', String c s' => String c (take n' s')
  end.

(** Every character of [s] satisfies [p]. *)
Fixpoint all (p : ascii -> bool) (s : string) : bool :=
  match s with
  | EmptyString => true
  | String c s' => p c && all p s'
  end.

(** [drop n s] is [s] without its first [n] characters. *)
Fixpoint drop (n : nat) (s : string) : string :=
  match n, s with
  | O, _ => s
  | S _, EmptyString => EmptyString
  | S n', String _ s' => drop n' s'
  end.

End Str.

(* ================================================================== *)
(** * Regular expressions: the fragment of Python's [re] the server uses *)

Module re.

(** Syntax.  [Lit] is a run of literal (possibly escaped) characters,
    [Set_] a bracketed class, [Star p] the greedy [x*] of a one-character
    matcher, [Repeat r n] is [r{n}], [Or] is [|], [Group] is the capturing
    group number 1. *)
Inductive regex : Type :=
| Lit (t : string)
| Set_ (p : ascii -> bool)
| Star (p : ascii -> bool)
| Repeat (r : regex) (n : nat)
| Seq (r1 r2 : regex)
| Or (r1 r2 : regex)
| Group (r : regex).

(** [.] without DOTALL: any character except a newline. *)
Definition dot (c : ascii) : bool := negb (Ascii.eqb c "010"%char).

(** The text consumed between the input [s] and its suffix [s']. *)
Definition consumed (s s' : string) : string :=
  Str.take (String.length s - String.length s') s.

(** What a successful match yields: here, the text of group 1. *)
Definition captures : Type := option string.
Definition cont : Type := string -> captures -> option captures.

(** Greedy repetition: take the character if it matches and try the
    rest; on failure give it back and go on with the continuation. *)
Fixpoint star (p : ascii -> bool) (s : string) (k : string -> option captures)
  : option captures :=
  match s with
  | String c s' =>
      if p c then
        match star p s' k with
        | Some m => Some m
        | None => k s
        end
      else k s
  | EmptyString => k s
  end.

Fixpoint times (n : nat) (f : string -> captures -> cont -> option captures)
  (s : string) (g : captures) (k : cont) : option captures :=
  match n with
  | O => k s g
  | S n' => f s g (fun s' g' => times n' f s' g' k)
  end.

(** Backtracking matcher in continuation-passing style: [rmatch r s g k]
    matches [r] at the front of [s] and hands the rest of the input to
    [k]; when [k] fails the next alternative of [r] is tried, in the
    priority order of Python's engine. *)
Fixpoint rmatch (r : regex) (s : string) (g : captures) (k : cont)
  {struct r} : option captures :=
  match r with
  | Lit t =>
      match Str.strip_prefix t s with
      | Some s' => k s' g
      | None => None
      end
  | Set_ p =>
      match s with
      | String c s' => if p c then k s' g else None
      | EmptyString => None
      end
  | Star p => star p s (fun s' => k s' g)
  | Repeat r' n => times n (rmatch r') s g k
  | Seq r1 r2 => rmatch r1 s g (fun s' g' => rmatch r2 s' g' k)
  | Or r1 r2 =>
      match rmatch r1 s g k with
      | Some m => Some m
      | None => rmatch r2 s g k
      end
  | Group r' => rmatch r' s g (fun s' _ => k s' (Some (consumed s s')))
  end.

(** A match of [r] starting exactly at the front of [s]. *)
Definition match_here (r : regex) (s : string) : option captures :=
  rmatch r s None (fun _ g => Some g).

(** [re.search]: the match at the leftmost start position that has one.
    The result is the match object, reduced to its group 1. *)
Fixpoint search (r : regex) (s : string) : option captures :=
  match match_here r s with
  | Some m => Some m
  | None =>
      match s with
      | String _ s' => search r s'
      | EmptyString => None
      end
  end.

(** [m.group(1)]; [None] in Python when the group took no part in the
    match, which no match of the two patterns below does. *)
Definition group1 (m : option string) : string :=
  match m with
  | Some w => w
  | None => EmptyString
  end.

End re.

(* ================================================================== *)
(** * Exceptions and outcomes *)

(** An exception: its class name, whether the class derives from
    [ValueError], and [str(e)].  Every class modelled derives from
    [Exception]. *)
Record exn : Type := mkExn {
  exn_class : string;
  exn_is_ValueError : bool;
  exn_msg : string
}.

Definition Exception_ (m : string) : exn := mkExn "Exception" false m.
Definition ValueError (m : string) : exn := mkExn "ValueError" true m.
Definition TypeError (m : string) : exn := mkExn "TypeError" false m.
Definition KeyError (m : string) : exn := mkExn "KeyError" false m.
Definition IndexError (m : string) : exn := mkExn "IndexError" false m.
Definition AttributeError (m : string) : exn := mkExn "AttributeError" false m.
Definition OverflowError (m : string) : exn := mkExn "OverflowError" false m.

Inductive outcome (A : Type) : Type :=
| Ret (a : A)
| Raise (e : exn).
Arguments Ret {A} a.
Arguments Raise {A} e.

(* ================================================================== *)
(** * [_extract_video_id] *)

Definition in_range (lo hi : nat) (c : ascii) : bool :=
  ((lo <=? nat_of_ascii c) && (nat_of_ascii c <=? hi))%nat.

(** [[a-zA-Z0-9_-]] *)
Definition id_class (c : ascii) : bool :=
  in_range 97 122 c || in_range 65 90 c || in_range 48 57 c
  || Ascii.eqb c "_"%char || Ascii.eqb c "-"%char.

(** [[\?&]] *)
Definition query_sep (c : ascii) : bool :=
  Ascii.eqb c "?"%char || Ascii.eqb c "&"%char.

Definition video_id_group : re.regex := re.Group (re.Repeat (re.Set_ id_class) 11).

Definition pattern_1 : re.regex :=
  re.Seq
    (re.Or (re.Lit "youtube.com/watch?v=")
    (re.Or (re.Lit "youtu.be/")
    (re.Or (re.Lit "youtube.com/embed/")
    (re.Or (re.Lit "youtube.com/v/")
           (re.Lit "youtube.com/shorts/")))))
    video_id_group.

Definition pattern_2 : re.regex :=
  re.Seq (re.Lit "youtube.com/")
  (re.Seq (re.Star re.dot)
  (re.Seq (re.Set_ query_sep)
  (re.Seq (re.Lit "v=")
          video_id_group))).

Definition patterns : list re.regex := [pattern_1; pattern_2].

Definition no_video_id : string := "No valid YouTube video ID found in URL".

(** The [for pattern in patterns] loop. *)
Fixpoint first_match (ps : list re.regex) (url : string) : outcome string :=
  match ps with
  | pattern :: ps' =>
      match re.search pattern url with
      | Some m => Ret (re.group1 m)
      | None => first_match ps' url
      end
  | [] => Raise (ValueError no_video_id)
  end.

Definition _extract_video_id (url : string) : outcome string :=
  first_match patterns url.

(* ================================================================== *)
(** * Python values *)

(** The values that reach the server from its backends: what [json] can
    decode, which is also what [to_raw_data()] returns.  A [dict] keeps its
    keys in insertion order, so it is an association list. *)
Inductive pyval : Type :=
| PNone
| PBool (b : bool)
| PInt (z : Z)
| PFloat (f : spec_float)
| PStr (s : string)
| PList (l : list pyval)
| PDict (d : list (string * pyval)).

Definition type_name (v : pyval) : string :=
  match v with
  | PNone => "NoneType"
  | PBool _ => "bool"
  | PInt _ => "int"
  | PFloat _ => "float"
  | PStr _ => "str"
  | PList _ => "list"
  | PDict _ => "dict"
  end.

(** Truth value testing, as [not x] and [if x] use it. *)
Definition truthy (v : pyval) : bool :=
  match v with
  | PNone => false
  | PBool b => b
  | PInt z => negb (z =? 0)%Z
  | PFloat (S754_zero _) => false
  | PFloat _ => true
  | PStr EmptyString => false
  | PStr _ => true
  | PList [] => false
  | PList _ => true
  | PDict [] => false
  | PDict _ => true
  end.

Module Dict.

Definition t : Type := list (string * pyval).

(** [d.get(k)] as an option. *)
Fixpoint get (d : t) (k : string) : option pyval :=
  match d with
  | [] => None
  | (k', v) :: d' => if String.eqb k' k then Some v else get d' k
  end.

(** [d[k] = v]: an existing key keeps its place, a new one goes last. *)
Fixpoint set (d : t) (k : string) (v : pyval) : t :=
  match d with
  | [] => [(k, v)]
  | (k', v') :: d' =>
      if String.eqb k' k then (k', v) :: d' else (k', v') :: set d' k v
  end.

Definition keys (d : t) : list string := map fst d.

End Dict.

(** [x.get(k, default)]: only a [dict] has the method here. *)
Definition py_get (x : pyval) (k : string) (default : pyval) : outcome pyval :=
  match x with
  | PDict d =>
      Ret (match Dict.get d k with
           | Some v => v
           | None => default
           end)
  | _ => Raise (AttributeError ("'" ++ type_name x ++ "' object has no attribute 'get'"))
  end.

(** [x[k]] with a string key. *)
Definition py_getitem (x : pyval) (k : string) : outcome pyval :=
  match x with
  | PDict d =>
      match Dict.get d k with
      | Some v => Ret v
      | None => Raise (KeyError ("'" ++ k ++ "'"))
      end
  | PNone | PBool _ | PInt _ | PFloat _ =>
      Raise (TypeError ("'" ++ type_name x ++ "' object is not subscriptable"))
  | PStr _ => Raise (TypeError "string indices must be integers")
  | PList _ => Raise (TypeError "list indices must be integers or slices, not str")
  end.

(** [x[0]]. *)
Definition py_first (x : pyval) : outcome pyval :=
  match x with
  | PList (v :: _) => Ret v
  | PList [] => Raise (IndexError "list index out of range")
  | PStr (String c _) => Ret (PStr (String c EmptyString))
  | PStr EmptyString => Raise (IndexError "string index out of range")
  | PDict _ => Raise (KeyError "0")
  | PNone | PBool _ | PInt _ | PFloat _ =>
      Raise (TypeError ("'" ++ type_name x ++ "' object is not subscriptable"))
  end.

(** [{**x}]: a copy of the mapping [x]. *)
Definition py_unpack (x : pyval) : outcome Dict.t :=
  match x with
  | PDict d => Ret d
  | _ => Raise (TypeError ("'" ++ type_name x ++ "' object is not a mapping"))
  end.

(* ================================================================== *)
(** * Integers, floats and their text *)

(** The exact integer part of a float, rounding toward zero. *)
Definition float_trunc (f : spec_float) : option Z :=
  match f with
  | S754_zero _ => Some 0%Z
  | S754_finite sign m e =>
      let magnitude :=
        if (0 <=? e)%Z then (Z.pos m * 2 ^ e)%Z
        else (Z.pos m / 2 ^ (- e))%Z in
      Some (if sign then (- magnitude)%Z else magnitude)
  | S754_infinity _ => None
  | S754_nan => None
  end.

(** The exact rational value of a finite float. *)
Definition float_value (f : spec_float) : option Q :=
  match f with
  | S754_zero _ => Some 0%Q
  | S754_finite sign m e =>
      let z := if sign then Z.neg m else Z.pos m in
      Some (if (0 <=? e)%Z then inject_Z (z * 2 ^ e)
            else Qmake z (Pos.pow 2 (Z.to_pos (- e))))
  | S754_infinity _ => None
  | S754_nan => None
  end.

Definition digit_char (d : Z) : ascii := ascii_of_nat (48 + Z.to_nat d).

(** Decimal digits of a non-negative integer, most significant first; the
    fuel bounds the number of digits. *)
Fixpoint digits_of (fuel : nat) (n : Z) (acc : string) : string :=
  match fuel with
  | O => acc
  | S fuel' =>
      let acc' := String (digit_char (n mod 10)) acc in
      if (n <? 10)%Z then acc' else digits_of fuel' (n / 10) acc'
  end.

Definition decimal (n : Z) : string :=
  digits_of (S (Z.to_nat (Z.log2 n))) n EmptyString.

Fixpoint zeros (n : nat) : string :=
  match n with
  | O => EmptyString
  | S n' => String "0" (zeros n')
  end.

(** [s.zfill(width)] for a string of digits. *)
Definition zfill (width : nat) (s : string) : string :=
  zeros (width - String.length s) ++ s.

(** [str(n)] for an [int]. *)
Definition str_of_int (n : Z) : string :=
  if (n <? 0)%Z then "-" ++ decimal (- n) else decimal n.

(** The format spec [02d]: zero fill to width 2, the sign counted in. *)
Definition format_02d (n : Z) : string :=
  if (n <? 0)%Z then "-" ++ zfill 1 (decimal (- n)) else zfill 2 (decimal n).

(* ================================================================== *)
(** * Effects *)

Inductive level : Type := INFO | WARNING | ERROR.

(** What the server does to the outside world, in order. *)
Inductive event : Type :=
| Log (lv : level) (message : string)
| TranscriptFetch (video_id : string) (languages : list string)
| HttpGet (url : string) (params : list (string * string)).

Definition M (A : Type) : Type := list event -> outcome A * list event.

Definition ret {A} (a : A) : M A := fun tr => (Ret a, tr).

Definition raise {A} (e : exn) : M A := fun tr => (Raise e, tr).

Definition lift {A} (o : outcome A) : M A := fun tr => (o, tr).

Definition bind {A B} (c : M A) (k : A -> M B) : M B :=
  fun tr =>
    match c tr with
    | (Ret a, tr') => k a tr'
    | (Raise e, tr') => (Raise e, tr')
    end.

Definition emit (ev : event) : M unit := fun tr => (Ret tt, (tr ++ [ev])%list).

Definition obind {A B} (o : outcome A) (k : A -> outcome B) : outcome B :=
  match o with
  | Ret a => k a
  | Raise e => Raise e
  end.

Declare Scope monad_scope.
Delimit Scope monad_scope with monad.
Notation "x <- c ;; k" := (bind c (fun x => k))
  (at level 61, c at next level, right associativity) : monad_scope.
Notation "c ;; k" := (bind c (fun _ => k))
  (at level 61, right associativity) : monad_scope.
Notation "'let?' x := c 'in' k" := (obind c (fun x => k))
  (at level 61, x name, c at next level, right associativity).

(** An [except C as e: ...] clause: the class test and the body. *)
Definition handler (A : Type) : Type := ((exn -> bool) * (exn -> M A))%type.

Definition isinstance_ValueError (e : exn) : bool := exn_is_ValueError e.
Definition isinstance_Exception (e : exn) : bool := true.

(** The first clause whose class matches runs; what it raises is not
    offered to its siblings.  With no matching clause the exception goes
    on. *)
Fixpoint dispatch {A} (hs : list (handler A)) (e : exn) : M A :=
  match hs with
  | [] => raise e
  | (is_class, body) :: hs' => if is_class e then body e else dispatch hs' e
  end.

Definition try_except {A} (body : M A) (hs : list (handler A)) : M A :=
  fun tr =>
    match body tr with
    | (Ret a, tr') => (Ret a, tr')
    | (Raise e, tr') => dispatch hs e tr'
    end.

(** A list comprehension whose element expression may raise. *)
Fixpoint comprehension {A B} (f : A -> outcome B) (l : list A) : outcome (list B) :=
  match l with
  | [] => Ret []
  | x :: l' =>
      let? y := f x in
      let? ys := comprehension f l' in
      Ret (y :: ys)
  end.

(** The HTTP response as [get_video_details] reads it. *)
Record response : Type := mkResponse {
  status : Z;
  json : outcome pyval
}.

Record TextContent : Type := mkTextContent {
  type : string;
  text : string
}.

(* ================================================================== *)
(** * The server *)

Definition YOUTUBE_API_BASE : string := "https://www.googleapis.com/youtube/v3".

Definition tool_name : string := "get_youtube_video_transcript".

Definition text_content (s : string) : TextContent := mkTextContent "text" s.

(** [arguments.get("url")] on the tool's argument dictionary, whose [url]
    the input schema declares a string. *)
Fixpoint arguments_get (arguments : list (string * string)) (k : string)
  : option string :=
  match arguments with
  | [] => None
  | (k', v) :: rest => if String.eqb k' k then Some v else arguments_get rest k
  end.

(** [not url] for [None] or a [str]. *)
Definition not_ (url : option string) : bool :=
  match url with
  | None => true
  | Some EmptyString => true
  | Some _ => false
  end.

(** The [str] behind a value already known not to be [None]. *)
Definition the_str (url : option string) : string :=
  match url with
  | Some u => u
  | None => EmptyString
  end.

(* ------------------------------------------------------------------ *)
(** ** Sample data for the scenarios *)

(** The binary64 values 5.0, 2.0 and 59.9. *)
Definition float_5_0 : spec_float := S754_finite false 5629499534213120 (-50).
Definition float_2_0 : spec_float := S754_finite false 4503599627370496 (-51).
Definition float_59_9 : spec_float := S754_finite false 8430175552484147 (-47).

(** The binary64 values 3599.0 and 3600.0. *)
Definition float_3599 : spec_float := S754_finite false 7914284696731648 (-41).
Definition float_3600 : spec_float := S754_finite false 7916483719987200 (-41).

Definition rick_url : string := "https://www.youtube.com/watch?v=dQw4w9WgXcQ".

Definition hi_segment : pyval :=
  PDict [ ("text", PStr "Hi"); ("start", PFloat float_5_0);
          ("duration", PFloat float_2_0) ].

Definition transcript_ok (video_id : string) (languages : list string)
  : outcome (list pyval) := Ret [ hi_segment ].

Definition transcript_blocked (video_id : string) (languages : list string)
  : outcome (list pyval) := Raise (Exception_ "Could not retrieve a transcript").

Definition rick_item : pyval :=
  PDict [ ("snippet", PDict [ ("title", PStr "Never Gonna Give You Up") ]) ].

Definition metadata_ok (url : string) (params : list (string * string))
  : outcome response :=
  Ret (mkResponse 200 (Ret (PDict [ ("items", PList [ rick_item ]) ]))).

(** Status 200 with a body that is not JSON: [response.json()] raises
    [json.JSONDecodeError], a subclass of [ValueError]. *)
Definition metadata_garbled (url : string) (params : list (string * string))
  : outcome response :=
  Ret (mkResponse 200
    (Raise (mkExn "JSONDecodeError" true "Expecting value: line 1 column 1 (char 0)"))).

Definition no_json (v : pyval) (indent : nat) : string := EmptyString.

Definition no_int (s : string) : outcome Z :=
  Raise (ValueError "invalid literal for int() with base 10").

(* ------------------------------------------------------------------ *)
(** ** Start-up configuration *)

(** [s.split(sep)] for a one-character separator: the pieces between the
    separators, the empty ones included. *)
Fixpoint split (sep : ascii) (s : string) : list string :=
  match s with
  | EmptyString => [ EmptyString ]
  | String c s' =>
      if Ascii.eqb c sep then EmptyString :: split sep s'
      else
        match split sep s' with
        | piece :: rest => String c piece :: rest
        | [] => [ String c EmptyString ]
        end
  end.

(** [c.isspace()] on the code points below 256. *)
Definition isspace (c : ascii) : bool :=
  in_range 9 13 c || in_range 28 32 c
  || (nat_of_ascii c =? 133)%nat || (nat_of_ascii c =? 160)%nat.

Fixpoint lstrip (s : string) : string :=
  match s with
  | String c s' => if isspace c then lstrip s' else s
  | EmptyString => EmptyString
  end.

Fixpoint rstrip (s : string) : string :=
  match s with
  | EmptyString => EmptyString
  | String c s' =>
      match rstrip s' with
      | EmptyString => if isspace c then EmptyString else String c EmptyString
      | r => String c r
      end
  end.

(** [s.strip()] *)
Definition strip (s : string) : string := rstrip (lstrip s).

(** [os.getenv(name, default)], given what the environment holds. *)
Definition getenv (value : option string) (default : string) : string :=
  match value with
  | Some v => v
  | None => default
  end.

(** [[lang.strip() for lang in os.getenv("TRANSCRIPT_LANGUAGE", "en").split(',')]]
    as a function of the environment variable. *)
Definition transcript_languages (TRANSCRIPT_LANGUAGE : option string)
  : list string :=
  map strip (split "," (getenv TRANSCRIPT_LANGUAGE "en")).


Definition metadata_404 (url : string) (params : list (string * string))
  : outcome response :=
  Ret (mkResponse 404 (Ret (PDict []))).

Section Server.

(** Process configuration, read once at start-up. *)
Variable YOUTUBE_API_KEY : string.
Variable TRANSCRIPT_LANGUAGES : list string.

(** The transcript backend:
    [youtube_transcript_api.fetch(video_id, languages=...).to_raw_data()]. *)
Variable fetch_raw_data : string -> list string -> outcome (list pyval).

(** The metadata backend: [session.get(url, params=params)]. *)
Variable session_get : string -> list (string * string) -> outcome response.

(** [json.dumps(value, indent=n)]. *)
Variable json_dumps : pyval -> nat -> string.

(** The builtin [int] applied to a [str]. *)
Variable int_of_str : string -> outcome Z.

(** The builtin [int]. *)
Definition py_int (x : pyval) : outcome Z :=
  match x with
  | PInt z => Ret z
  | PBool b => Ret (if b then 1 else 0)%Z
  | PFloat f =>
      match float_trunc f with
      | Some z => Ret z
      | None =>
          match f with
          | S754_nan => Raise (ValueError "cannot convert float NaN to integer")
          | _ => Raise (OverflowError "cannot convert float infinity to integer")
          end
      end
  | PStr s => int_of_str s
  | PNone | PList _ | PDict _ =>
      Raise (TypeError
        ("int() argument must be a string, a bytes-like object or a real number, not '"
         ++ type_name x ++ "'"))
  end.

Definition _format_time (seconds : pyval) : outcome string :=
  let? total_seconds := py_int seconds in
  let hours := (total_seconds / 3600)%Z in
  let minutes := ((total_seconds mod 3600) / 60)%Z in
  let seconds := (total_seconds mod 60)%Z in
  if (hours >? 0)%Z then
    Ret (format_02d hours ++ ":" ++ format_02d minutes ++ ":" ++ format_02d seconds)
  else
    Ret (format_02d minutes ++ ":" ++ format_02d seconds).

Open Scope monad_scope.

Definition get_video_details (video_id : string) : M pyval :=
  let url := YOUTUBE_API_BASE ++ "/videos" in
  let params :=
    [ ("part", "snippet,statistics,contentDetails");
      ("id", video_id);
      ("key", YOUTUBE_API_KEY) ] in
  emit (HttpGet url params) ;;
  response <- lift (session_get url params) ;;
  if negb (status response =? 200)%Z then
    raise (Exception_
      ("YouTube API request failed with status " ++ str_of_int (status response)))
  else
    data <- lift (json response) ;;
    items <- lift (py_get data "items" PNone) ;;
    if negb (truthy items) then
      raise (Exception_ "Video not found or unavailable")
    else
      items <- lift (py_getitem data "items") ;;
      video_info <- lift (py_first items) ;;
      snippet <- lift (py_get video_info "snippet" (PDict [])) ;;
      statistics <- lift (py_get video_info "statistics" (PDict [])) ;;
      content_details <- lift (py_get video_info "contentDetails" (PDict [])) ;;
      title <- lift (py_get snippet "title" (PStr "")) ;;
      description <- lift (py_get snippet "description" (PStr "")) ;;
      channel_title <- lift (py_get snippet "channelTitle" (PStr "")) ;;
      published_at <- lift (py_get snippet "publishedAt" (PStr "")) ;;
      duration <- lift (py_get content_details "duration" (PStr "")) ;;
      view_count <- lift (py_get statistics "viewCount" (PStr "0")) ;;
      like_count <- lift (py_get statistics "likeCount" (PStr "0")) ;;
      comment_count <- lift (py_get statistics "commentCount" (PStr "0")) ;;
      ret (PDict
        [ ("title", title);
          ("description", description);
          ("channel_title", channel_title);
          ("published_at", published_at);
          ("duration", duration);
          ("view_count", view_count);
          ("like_count", like_count);
          ("comment_count", comment_count) ]).

(** [{**segment, 'start': _format_time(segment['start'])}] *)
Definition format_segment (segment : pyval) : outcome pyval :=
  let? copy := py_unpack segment in
  let? start := py_getitem segment "start" in
  let? formatted := _format_time start in
  Ret (PDict (Dict.set copy "start" (PStr formatted))).

Definition get_youtube_video_transcript (url : string) : M pyval :=
  try_except
    (video_id <- lift (_extract_video_id url) ;;
     emit (Log INFO
       ("Executing tool: get_video_transcript with video_id: " ++ video_id)) ;;
     try_except
       (emit (TranscriptFetch video_id TRANSCRIPT_LANGUAGES) ;;
        raw_transcript <- lift (fetch_raw_data video_id TRANSCRIPT_LANGUAGES) ;;
        formatted_transcript <- lift (comprehension format_segment raw_transcript) ;;
        ret (PDict
          [ ("video_id", PStr video_id);
            ("transcript", PList formatted_transcript) ]))
       [ (isinstance_Exception, fun transcript_error =>
            emit (Log WARNING
              ("Error fetching transcript: " ++ exn_msg transcript_error
               ++ ". Falling back to video details.")) ;;
            video_details <- get_video_details video_id ;;
            ret (PDict
              [ ("video_id", PStr video_id);
                ("video_details", video_details) ])) ])
    [ (isinstance_ValueError, fun e =>
         emit (Log ERROR ("Invalid YouTube URL: " ++ exn_msg e)) ;;
         ret (PDict [ ("error", PStr ("Invalid YouTube URL: " ++ exn_msg e)) ]));
      (isinstance_Exception, fun e =>
         let error_message := exn_msg e in
         emit (Log ERROR
           ("Error processing video URL " ++ url ++ ": " ++ error_message)) ;;
         ret (PDict
           [ ("error", PStr ("Failed to process request: " ++ error_message)) ])) ].

Definition handle_call_tool (name : string) (arguments : list (string * string))
  : M (list TextContent) :=
  if String.eqb name tool_name then
    let url := arguments_get arguments "url" in
    if not_ url then
      ret [ text_content "Error: URL parameter is required" ]
    else
      try_except
        (result <- get_youtube_video_transcript (the_str url) ;;
         ret [ text_content (json_dumps result 2) ])
        [ (isinstance_Exception, fun e =>
             emit (Log ERROR
               ("Error executing tool " ++ name ++ ": " ++ exn_msg e)) ;;
             ret [ text_content ("Error: " ++ exn_msg e) ]) ]
  else
    ret [ text_content ("Unknown tool: " ++ name) ].

Close Scope monad_scope.

(* ================================================================== *)
(** * Vocabulary of the specification *)

(** A video identifier: 11 characters, each of [[A-Za-z0-9_-]]. *)
Definition is_video_id (w : string) : Prop :=
  String.length w = 11 /\ Str.all id_class w = true.

Definition video_idb (w : string) : bool :=
  (String.length w =? 11)%nat && Str.all id_class w.

(** A token ends where the input ends or a character outside the class
    stands. *)
Definition token_ends (rest : string) : Prop :=
  match rest with
  | EmptyString => True
  | String c _ => id_class c = false
  end.

(** The URL shapes as the specification lists them: the marker text,
    wherever it stands, followed by the identifier. *)
Definition listed_markers : list string :=
  [ "watch?v="; "youtu.be/"; "embed/"; "/v/"; "/shorts/"; "?v="; "&v=" ].

Definition listed_shape (url id : string) : Prop :=
  exists pre marker rest,
    In marker listed_markers /\ url = pre ++ marker ++ id ++ rest
    /\ is_video_id id /\ token_ends rest.

(** The shapes as the two patterns spell them.  The first pattern wants one
    of five anchors directly before the token. *)
Definition anchors : list string :=
  [ "youtube.com/watch?v="; "youtu.be/"; "youtube.com/embed/";
    "youtube.com/v/"; "youtube.com/shorts/" ].

(** [anchored url pre tok]: after the prefix [pre] of [url] an anchor
    stands, and [tok] are the 11 characters after it. *)
Definition anchored (url pre tok : string) : Prop :=
  exists anchor rest,
    In anchor anchors /\ url = pre ++ anchor ++ tok ++ rest /\ is_video_id tok.

(** The second pattern wants [youtube.com/], then any text [mid] without a
    newline, then [?v=] or [&v=], then the token. *)
Definition query_v (url pre mid tok : string) : Prop :=
  exists q rest,
    query_sep q = true
    /\ url = pre ++ "youtube.com/" ++ mid ++ String q ("v=" ++ tok ++ rest)
    /\ Str.all re.dot mid = true /\ is_video_id tok.

(** What [_extract_video_id] selects when several tokens qualify: the
    leftmost anchored token; without one, the [v=] token behind the leftmost
    [youtube.com/] that has one on its line, and of those the last. *)
Definition selected (url id : string) : Prop :=
  (exists pre, anchored url pre id
     /\ forall pre' id', anchored url pre' id' ->
          String.length pre <= String.length pre')
  \/ ((forall pre' id', ~ anchored url pre' id')
      /\ exists pre mid, query_v url pre mid id
           /\ (forall pre' mid' id', query_v url pre' mid' id' ->
                 String.length pre <= String.length pre')
           /\ (forall mid' id', query_v url pre mid' id' ->
                 String.length mid' <= String.length mid)).

(** The part of [pattern_2] behind its [.*], matched at the front of [s]. *)
Definition query_tail (s : string) : option re.captures :=
  re.rmatch
    (re.Seq (re.Set_ query_sep) (re.Seq (re.Lit "v=") video_id_group))
    s None (fun _ g => Some g).

(** A decimal digit, the number it stands for, and the number a string of
    digits denotes. *)
Definition is_digit (c : ascii) : bool := in_range 48 57 c.

Definition digit_val (c : ascii) : Z := Z.of_nat (nat_of_ascii c) - 48.

Fixpoint dec_value (s : string) : Z :=
  match s with
  | EmptyString => 0
  | String c s' => digit_val c * 10 ^ Z.of_nat (String.length s') + dec_value s'
  end.

(** A clock field: the decimal text of [n], zero-padded to two digits and
    never to more. *)
Definition clock_field (n : Z) (f : string) : Prop :=
  Str.all is_digit f = true /\ dec_value f = n
  /\ 2 <= String.length f
  /\ (2 < String.length f -> (10 ^ (Z.of_nat (String.length f) - 1) <= n)%Z).

(** The clock text of [t] whole seconds. *)
Definition clock_text (t : Z) (out : string) : Prop :=
  exists fh fm fs,
    clock_field (t / 3600) fh /\ clock_field ((t mod 3600) / 60) fm
    /\ clock_field (t mod 60) fs
    /\ out = if (t / 3600 =? 0)%Z then fm ++ ":" ++ fs
             else fh ++ ":" ++ fm ++ ":" ++ fs.

(** A finite float and its exact value. *)
Definition finite_value (x : spec_float) (v : Q) : Prop := float_value x = Some v.

(** The request [get_video_details] sends. *)
Definition metadata_url : string := YOUTUBE_API_BASE ++ "/videos".

Definition metadata_params (video_id : string) : list (string * string) :=
  [ ("part", "snippet,statistics,contentDetails");
    ("id", video_id);
    ("key", YOUTUBE_API_KEY) ].

(** A facet of a video item: the dictionary under [name], or the empty one
    when the item has no such key. *)
Definition facet (info : Dict.t) (name : string) (f : Dict.t) : Prop :=
  (Dict.get info name = None /\ f = [])
  \/ Dict.get info name = Some (PDict f).

(** A field of a facet, or its default when the facet lacks it. *)
Definition field_or (f : Dict.t) (k : string) (default : pyval) : pyval :=
  match Dict.get f k with
  | Some v => v
  | None => default
  end.

(** The two failures [get_video_details] raises itself. *)
Definition BackendError (status : Z) : exn :=
  Exception_ ("YouTube API request failed with status " ++ str_of_int status).

Definition VideoNotFound : exn := Exception_ "Video not found or unavailable".

(** The three shapes of a lookup result. *)
Definition transcript_result (video_id : string) (segments : list pyval) : pyval :=
  PDict [ ("video_id", PStr video_id); ("transcript", PList segments) ].

Definition details_result (video_id : string) (details : pyval) : pyval :=
  PDict [ ("video_id", PStr video_id); ("video_details", details) ].

Definition error_result (message : string) : pyval :=
  PDict [ ("error", PStr message) ].

(** A raw segment whose [start] is a number [int] accepts: a finite float
    or an [int]. *)
Definition finite_number (v : pyval) : Prop :=
  (exists x q, v = PFloat x /\ finite_value x q) \/ (exists z, v = PInt z).

Definition well_formed_segment (segment : pyval) : Prop :=
  exists d start,
    segment = PDict d /\ Dict.get d "start" = Some start /\ finite_number start.

(** [seg] is [raw] with its [start] replaced by the display string and
    nothing else touched: same keys in the same order, same values under
    every other key. *)
Definition formatted_from (raw seg : pyval) : Prop :=
  exists d d' start shown,
    raw = PDict d /\ seg = PDict d'
    /\ Dict.get d "start" = Some start /\ _format_time start = Ret shown
    /\ Dict.get d' "start" = Some (PStr shown)
    /\ Dict.keys d' = Dict.keys d
    /\ forall k, k <> "start" -> Dict.get d' k = Dict.get d k.

(** A lookup result is of exactly one of the three shapes; a transcript is
    the backend's list with every segment formatted. *)
Definition lookup_shape (r : pyval) : Prop :=
  (exists video_id raw segments,
     r = transcript_result video_id segments
     /\ fetch_raw_data video_id TRANSCRIPT_LANGUAGES = Ret raw
     /\ Forall2 (fun x y => format_segment x = Ret y) raw segments)
  \/ (exists video_id details, r = details_result video_id details)
  \/ (exists message, r = error_result message).

(** A computation that performs no effect. *)
Definition silent {A} (c : M A) : Prop := forall tr, snd (c tr) = tr.

(** What the inner [try] block computes once the fetch has been issued:
    the backend's answer with every segment formatted, or the first
    exception either step raises. *)
Definition transcript_attempt (video_id : string) : outcome (list pyval) :=
  let? raw_transcript := fetch_raw_data video_id TRANSCRIPT_LANGUAGES in
  comprehension format_segment raw_transcript.

(** The log lines of a lookup. *)
Definition log_executing (video_id : string) : event :=
  Log INFO ("Executing tool: get_video_transcript with video_id: " ++ video_id).

Definition log_fallback (e : exn) : event :=
  Log WARNING
    ("Error fetching transcript: " ++ exn_msg e ++ ". Falling back to video details.").

Definition log_invalid (e : exn) : event :=
  Log ERROR ("Invalid YouTube URL: " ++ exn_msg e).

Definition log_failed (url : string) (e : exn) : event :=
  Log ERROR ("Error processing video URL " ++ url ++ ": " ++ exn_msg e).

(** The trace of a lookup up to the moment the transcript attempt ends. *)
Definition attempted (tr : list event) (video_id : string) : list event :=
  (tr ++ [ log_executing video_id;
           TranscriptFetch video_id TRANSCRIPT_LANGUAGES ])%list.

(** How the outer handlers turn a failure of [get_video_details] into a
    result: the class of the exception picks the label. *)
Definition failure_result (url : string) (e : exn) (tr : list event)
  : outcome pyval * list event :=
  if exn_is_ValueError e then
    (Ret (error_result ("Invalid YouTube URL: " ++ exn_msg e)),
     (tr ++ [ log_invalid e ])%list)
  else
    (Ret (error_result ("Failed to process request: " ++ exn_msg e)),
     (tr ++ [ log_failed url e ])%list).

(** Proofs about the pure functions forget the backends. *)
Ltac pure :=
  clear YOUTUBE_API_KEY TRANSCRIPT_LANGUAGES fetch_raw_data session_get
        json_dumps int_of_str.

Ltac only_int :=
  clear YOUTUBE_API_KEY TRANSCRIPT_LANGUAGES fetch_raw_data session_get
        json_dumps.

(* ================================================================== *)
(** * Strings: basic facts *)

Lemma str_app_assoc (a b c : string) : (a ++ b) ++ c = a ++ (b ++ c).
Proof. induction a as [|x a IH]; simpl; [reflexivity | now rewrite IH]. Qed.

Lemma str_app_nil_l (a : string) : "" ++ a = a.
Proof. reflexivity. Qed.

Lemma str_app_nil_r (a : string) : a ++ "" = a.
Proof. induction a as [|x a IH]; simpl; [reflexivity | now rewrite IH]. Qed.

Lemma str_length_app (a b : string) :
  String.length (a ++ b) = String.length a + String.length b.
Proof. induction a as [|x a IH]; simpl; [reflexivity | now rewrite IH]. Qed.

Lemma str_length_0 (a : string) : String.length a = 0 -> a = "".
Proof. destruct a; [reflexivity | discriminate]. Qed.

Lemma take_drop (n : nat) (s : string) : Str.take n s ++ Str.drop n s = s.
Proof.
  revert s; induction n as [|n IH]; intros [|c s]; simpl; try reflexivity.
  now rewrite IH.
Qed.

Lemma take_app_exact (w r : string) : Str.take (String.length w) (w ++ r) = w.
Proof. induction w as [|c w IH]; simpl; [reflexivity | now rewrite IH]. Qed.

Lemma drop_app_exact (w r : string) : Str.drop (String.length w) (w ++ r) = r.
Proof. induction w as [|c w IH]; simpl; [reflexivity | exact IH]. Qed.

Lemma take_length_le (n : nat) (s : string) : String.length (Str.take n s) <= n.
Proof.
  revert s; induction n as [|n IH]; intros [|c s]; simpl; try lia.
  specialize (IH s); lia.
Qed.

Lemma all_app (p : ascii -> bool) (a b : string) :
  Str.all p (a ++ b) = Str.all p a && Str.all p b.
Proof.
  induction a as [|c a IH]; simpl; [reflexivity |].
  now rewrite IH, andb_assoc.
Qed.

Lemma strip_prefix_app (t s : string) : Str.strip_prefix t (t ++ s) = Some s.
Proof.
  induction t as [|c t IH]; simpl; [reflexivity |].
  now rewrite Ascii.eqb_refl.
Qed.

Lemma strip_prefix_Some (t s s' : string) :
  Str.strip_prefix t s = Some s' -> s = t ++ s'.
Proof.
  revert s; induction t as [|c t IH]; intros s H; simpl in *.
  - now inversion H.
  - destruct s as [|d s]; [discriminate |].
    destruct (Ascii.eqb_spec c d) as [->|]; [| discriminate].
    now rewrite (IH _ H).
Qed.

(** Two ways to cut one string: the shorter front is a prefix of the
    longer one. *)
Lemma str_app_cut (a b a' b' : string) :
  a ++ b = a' ++ b' -> String.length a <= String.length a' ->
  exists c, a' = a ++ c /\ b = c ++ b'.
Proof.
  revert a'; induction a as [|x a IH]; intros a' H L; simpl in *.
  - exists a'; split; [reflexivity | exact H].
  - destruct a' as [|y a']; simpl in *; [lia |].
    inversion H; subst.
    destruct (IH a') as [c [-> ->]]; [assumption | lia |].
    exists c; split; reflexivity.
Qed.

Lemma str_app_inv (a b a' b' : string) :
  a ++ b = a' ++ b' -> String.length a = String.length a' ->
  a = a' /\ b = b'.
Proof.
  intros H L.
  destruct (str_app_cut a b a' b' H) as [c [Ha Hb]]; [lia |].
  assert (c = "") as ->.
  { apply str_length_0. rewrite Ha, str_length_app in L. lia. }
  rewrite str_app_nil_r in Ha. simpl in Hb. now subst.
Qed.

Lemma str_app_inv_head (a b b' : string) : a ++ b = a ++ b' -> b = b'.
Proof. intros H. now apply (str_app_inv a b a b'). Qed.

Lemma video_idb_iff (w : string) : video_idb w = true <-> is_video_id w.
Proof.
  unfold video_idb, is_video_id.
  rewrite andb_true_iff, Nat.eqb_eq. reflexivity.
Qed.

(* ================================================================== *)
(** * The matcher: what each construct accepts *)

Lemma consumed_take (n : nat) (s : string) :
  String.length (Str.take n s) = n ->
  re.consumed s (Str.drop n s) = Str.take n s.
Proof.
  intros L. unfold re.consumed.
  rewrite <- (take_drop n s) at 1 3.
  rewrite str_length_app, L.
  replace (n + String.length (Str.drop n s) - String.length (Str.drop n s))
    with (String.length (Str.take n s)) by lia.
  apply take_app_exact.
Qed.

(** [[class]{n}] takes exactly the first [n] characters, all of the class. *)
Lemma repeat_set_eq (p : ascii -> bool) (n : nat) (s : string)
  (g : re.captures) (k : re.cont) :
  re.rmatch (re.Repeat (re.Set_ p) n) s g k =
  if (String.length (Str.take n s) =? n)%nat && Str.all p (Str.take n s)
  then k (Str.drop n s) g else None.
Proof.
  change (re.rmatch (re.Repeat (re.Set_ p) n) s g k)
    with (re.times n (re.rmatch (re.Set_ p)) s g k).
  revert s g; induction n as [|n IH]; intros s g.
  - destruct s; reflexivity.
  - destruct s as [|c s]; [reflexivity |].
    cbn [re.times]. 
    change (re.rmatch (re.Set_ p) (String c s) g
              (fun s' g' => re.times n (re.rmatch (re.Set_ p)) s' g' k))
      with (if p c then re.times n (re.rmatch (re.Set_ p)) s g k else None).
    rewrite IH. cbn [Str.take Str.drop Str.all String.length].
    change (S (String.length (Str.take n s)) =? S n)%nat
      with (String.length (Str.take n s) =? n)%nat.
    destruct (p c); simpl.
    + destruct (String.length (Str.take n s) =? n)%nat; reflexivity.
    + now rewrite andb_false_r.
Qed.

(** The capturing group of both patterns. *)
Lemma video_id_group_eq (s : string) (g : re.captures) (k : re.cont) :
  re.rmatch video_id_group s g k =
  if video_idb (Str.take 11 s)
  then k (Str.drop 11 s) (Some (Str.take 11 s)) else None.
Proof.
  unfold video_id_group.
  change (re.rmatch (re.Group (re.Repeat (re.Set_ id_class) 11)) s g k)
    with (re.rmatch (re.Repeat (re.Set_ id_class) 11) s g
            (fun s' _ => k s' (Some (re.consumed s s')))).
  rewrite repeat_set_eq. unfold video_idb.
  destruct (String.length (Str.take 11 s) =? 11)%nat eqn:L; [| reflexivity].
  apply Nat.eqb_eq in L. now rewrite (consumed_take 11 s L).
Qed.

(** The greedy star fails exactly when the continuation fails behind every
    prefix it could take. *)
Lemma star_None (p : ascii -> bool) (k : string -> option re.captures) (s : string) :
  re.star p s k = None <->
  forall mid rest, s = mid ++ rest -> Str.all p mid = true -> k rest = None.
Proof.
  induction s as [|c s IH]; simpl.
  - split.
    + intros H mid rest E _. destruct mid; [simpl in E; now subst | discriminate].
    + intros H. now apply (H "" "").
  - split.
    + intros H mid rest E A.
      destruct mid as [|d mid]; simpl in E.
      * subst rest. destruct (p c); [| exact H].
        destruct (re.star p s k); [discriminate | exact H].
      * inversion E; subst d s. simpl in A. apply andb_true_iff in A as [Pc A].
        rewrite Pc in H.
        destruct (re.star p (mid ++ rest) k) eqn:R; [discriminate |].
        apply (proj1 IH eq_refl mid rest eq_refl A).
    + intros H.
      assert (K : k (String c s) = None) by now apply (H "" (String c s)).
      destruct (p c) eqn:Pc; [| exact K].
      assert (R : re.star p s k = None).
      { apply IH. intros mid rest E A.
        apply (H (String c mid) rest); simpl; [now rewrite E | now rewrite Pc]. }
      now rewrite R.
Qed.

(** When it succeeds it has taken the longest prefix behind which the
    continuation succeeds. *)
Lemma star_Some (p : ascii -> bool) (k : string -> option re.captures)
  (s : string) (m : re.captures) :
  re.star p s k = Some m <->
  exists mid rest,
    s = mid ++ rest /\ Str.all p mid = true /\ k rest = Some m
    /\ forall mid' rest', s = mid' ++ rest' -> Str.all p mid' = true ->
         String.length mid < String.length mid' -> k rest' = None.
Proof.
  revert m; induction s as [|c s IH]; intros m; simpl.
  - split.
    + intros H. exists "", "". repeat split; try assumption.
      intros mid' rest' E _ L. destruct mid'; [simpl in L; lia | discriminate].
    + intros (mid & rest & E & _ & K & _).
      destruct mid; [simpl in E; now subst | discriminate].
  - split.
    + intros H. destruct (p c) eqn:Pc.
      * destruct (re.star p s k) as [m'|] eqn:R.
        -- inversion H; subst m'.
           destruct (proj1 (IH m) eq_refl) as (mid & rest & E & A & K & Max).
           exists (String c mid), rest. simpl. rewrite Pc, E.
           repeat split; try assumption.
           intros mid' rest' E' A' L.
           destruct mid' as [|d mid']; [simpl in L; lia |].
           simpl in E', A', L. inversion E'; subst d.
           apply andb_true_iff in A' as [_ A'].
           apply (Max mid' rest'); [congruence | assumption | lia].
        -- exists "", (String c s). repeat split; try assumption.
           intros mid' rest' E' A' L.
           destruct mid' as [|d mid']; [simpl in L; lia |].
           simpl in E', A'. inversion E'; subst d.
           apply andb_true_iff in A' as [_ A'].
           apply (proj1 (star_None p k s) R mid' rest'); assumption.
      * exists "", (String c s). repeat split; try assumption.
        intros mid' rest' E' A' L.
        destruct mid' as [|d mid']; [simpl in L; lia |].
        simpl in E', A'. inversion E'; subst d.
        rewrite Pc in A'. discriminate.
    + intros (mid & rest & E & A & K & Max).
      destruct mid as [|d mid]; simpl in E.
      * subst rest. destruct (p c) eqn:Pc; [| exact K].
        assert (R : re.star p s k = None).
        { apply star_None. intros mid' rest' E' A'.
          apply (Max (String c mid') rest'); simpl;
            [now rewrite E' | now rewrite Pc | lia]. }
        now rewrite R.
      * injection E as Ec Es. subst d. simpl in A.
        apply andb_true_iff in A as [Pc A]. rewrite Pc.
        assert (R : re.star p s k = Some m).
        { apply IH. exists mid, rest. repeat split; try assumption.
          intros mid' rest' E' A' L.
          apply (Max (String c mid') rest'); simpl;
            [now rewrite E' | now rewrite Pc | lia]. }
        now rewrite R.
Qed.

(** [re.search] fails exactly when no suffix has a match at its front. *)
Lemma search_None (r : re.regex) (s : string) :
  re.search r s = None <->
  forall pre rest, s = pre ++ rest -> re.match_here r rest = None.
Proof.
  induction s as [|c s IH]; simpl.
  - split.
    + intros H pre rest E. destruct pre; [| discriminate].
      simpl in E; subst rest. now destruct (re.match_here r "").
    + intros H. now rewrite (H "" "" eq_refl).
  - split.
    + intros H pre rest E.
      destruct (re.match_here r (String c s)) eqn:R; [discriminate |].
      destruct pre as [|d pre]; simpl in E; [now subst rest |].
      inversion E; subst d. apply (proj1 IH H pre rest); assumption.
    + intros H. rewrite (H "" (String c s) eq_refl).
      apply IH. intros pre rest E. apply (H (String c pre) rest).
      simpl. now rewrite E.
Qed.

(** It succeeds with the match found at the leftmost position that has
    one. *)
Lemma search_Some (r : re.regex) (s : string) (m : re.captures) :
  re.search r s = Some m <->
  exists pre rest,
    s = pre ++ rest /\ re.match_here r rest = Some m
    /\ forall pre' rest', s = pre' ++ rest' ->
         String.length pre' < String.length pre ->
         re.match_here r rest' = None.
Proof.
  induction s as [|c s IH]; simpl.
  - split.
    + intros H. exists "", "". destruct (re.match_here r "") eqn:R; [| discriminate].
      injection H as ->.
      repeat split; try assumption. intros pre' rest' _ L. simpl in L; lia.
    + intros (pre & rest & E & R & _).
      destruct pre; [| discriminate]. simpl in E; subst rest. now rewrite R.
  - split.
    + intros H. destruct (re.match_here r (String c s)) eqn:R.
      * injection H as ->. exists "", (String c s). repeat split; try assumption.
        intros pre' rest' _ L. simpl in L; lia.
      * apply IH in H as (pre & rest & E & R' & Min).
        exists (String c pre), rest. simpl. rewrite E. repeat split; try assumption.
        intros pre' rest' E' L.
        destruct pre' as [|d pre']; simpl in E'.
        -- now rewrite <- E', <- E.
        -- injection E' as Ec Es. apply (Min pre' rest'); [congruence | simpl in L; lia].
    + intros (pre & rest & E & R & Min).
      destruct pre as [|d pre]; simpl in E.
      * subst rest. now rewrite R.
      * injection E as Ec Es. subst d.
        rewrite (Min "" (String c s)); [| reflexivity | simpl; lia].
        apply IH. exists pre, rest. repeat split; try assumption.
        intros pre' rest' E' L. apply (Min (String c pre') rest');
          simpl; [now rewrite E' | lia].
Qed.

(* ================================================================== *)
(** * The two patterns at one position *)

Lemma anchored_shift (pre s tok : string) :
  anchored (pre ++ s) pre tok <-> anchored s "" tok.
Proof.
  split; intros (anchor & rest & I & E & V); exists anchor, rest;
    (split; [exact I | split; [| exact V]]).
  - now apply str_app_inv_head in E.
  - simpl in E. now rewrite E.
Qed.

Lemma query_v_shift (pre s mid tok : string) :
  query_v (pre ++ s) pre mid tok <-> query_v s "" mid tok.
Proof.
  split; intros (q & rest & Q & E & D & V); exists q, rest;
    (split; [exact Q | split; [| split; [exact D | exact V]]]).
  - now apply str_app_inv_head in E.
  - rewrite str_app_nil_l in E. now rewrite E.
Qed.

(** The 11 characters in front of [s], when they form an identifier. *)
Lemma take_11_token (tok rest : string) :
  is_video_id tok ->
  Str.take 11 (tok ++ rest) = tok /\ Str.drop 11 (tok ++ rest) = rest.
Proof.
  intros [L _]. rewrite <- L. split; [apply take_app_exact | apply drop_app_exact].
Qed.

Ltac split_alternatives H s :=
  repeat (cbv beta iota in H;
          match type of H with
          | context [Str.strip_prefix ?a s] =>
              destruct (Str.strip_prefix a s) eqn:?
          | context [re.rmatch video_id_group ?x ?g ?k] =>
              rewrite (video_id_group_eq x g k) in H
          | context [if video_idb ?w then _ else _] =>
              destruct (video_idb w) eqn:?
          end).

Lemma match_here_1_Some (s : string) (m : re.captures) :
  re.match_here pattern_1 s = Some m <->
  exists tok, m = Some tok /\ anchored s "" tok.
Proof.
  pure.
  split.
  - intros H. unfold re.match_here, pattern_1 in H. cbn [re.rmatch] in H.
    split_alternatives H s; try discriminate H;
      match type of H with
      | Some (Some (Str.take 11 ?s0)) = Some _ =>
          match goal with
          | E : Str.strip_prefix ?a s = Some s0,
            V : video_idb (Str.take 11 s0) = true |- _ =>
              injection H as <-;
              exists (Str.take 11 s0); split; [reflexivity |];
              exists a, (Str.drop 11 s0);
              apply strip_prefix_Some in E; apply video_idb_iff in V;
              repeat split; try (apply V);
                [ unfold anchors; simpl; tauto
                | rewrite str_app_nil_l, take_drop; exact E ]
          end
      end.
  - intros (tok & -> & anchor & rest & I & E & V).
    rewrite str_app_nil_l in E. subst s.
    destruct (take_11_token tok rest V) as [T D].
    apply video_idb_iff in V.
    unfold anchors in I; simpl in I.
    unfold re.match_here, pattern_1.
    repeat (destruct I as [<- | I];
            [ cbn [re.rmatch]; simpl Str.strip_prefix; cbv beta iota;
              rewrite video_id_group_eq, T, V; reflexivity |]).
    contradiction.
Qed.

Lemma match_here_1_None (s : string) :
  re.match_here pattern_1 s = None <-> forall tok, ~ anchored s "" tok.
Proof.
  split.
  - intros H tok A.
    assert (R : re.match_here pattern_1 s = Some (Some tok))
      by (apply match_here_1_Some; now exists tok).
    congruence.
  - intros H. destruct (re.match_here pattern_1 s) as [m|] eqn:R; [| reflexivity].
    apply match_here_1_Some in R as (tok & _ & A). now destruct (H tok).
Qed.

Lemma query_tail_Some (s : string) (m : re.captures) :
  query_tail s = Some m <->
  exists q tok rest,
    s = String q ("v=" ++ tok ++ rest) /\ query_sep q = true
    /\ is_video_id tok /\ m = Some tok.
Proof.
  unfold query_tail. cbn [re.rmatch]. split.
  - intros H. destruct s as [|q s]; [discriminate |].
    destruct (query_sep q) eqn:Q; [| discriminate].
    destruct (Str.strip_prefix "v=" s) as [s0|] eqn:E; [| discriminate].
    rewrite video_id_group_eq in H.
    destruct (video_idb (Str.take 11 s0)) eqn:V; [| discriminate].
    injection H as <-. apply strip_prefix_Some in E. apply video_idb_iff in V.
    exists q, (Str.take 11 s0), (Str.drop 11 s0).
    repeat split; try assumption; try apply V.
    now rewrite take_drop, E.
  - intros (q & tok & rest & -> & Q & V & ->).
    rewrite Q. simpl Str.strip_prefix.
    destruct (take_11_token tok rest V) as [T D]. apply video_idb_iff in V.
    now rewrite video_id_group_eq, T, V.
Qed.

Lemma match_here_2_eq (s : string) :
  re.match_here pattern_2 s =
  match Str.strip_prefix "youtube.com/" s with
  | Some s1 => re.star re.dot s1 query_tail
  | None => None
  end.
Proof. reflexivity. Qed.

Lemma match_here_2_Some (s : string) (m : re.captures) :
  re.match_here pattern_2 s = Some m <->
  exists mid tok,
    m = Some tok /\ query_v s "" mid tok
    /\ forall mid' tok', query_v s "" mid' tok' ->
         String.length mid' <= String.length mid.
Proof.
  rewrite match_here_2_eq. split.
  - intros H.
    destruct (Str.strip_prefix "youtube.com/" s) as [s1|] eqn:E; [| discriminate].
    apply strip_prefix_Some in E.
    apply star_Some in H as (mid & rest0 & E1 & D & T & Max).
    apply query_tail_Some in T as (q & tok & rest & -> & Q & V & ->).
    exists mid, tok. split; [reflexivity |]. split.
    + exists q, rest. repeat split; try assumption; try apply V.
      rewrite str_app_nil_l. now rewrite E, E1.
    + intros mid' tok' (q' & rest' & Q' & E' & D' & V').
      destruct (Nat.le_gt_cases (String.length mid') (String.length mid))
        as [L | L]; [exact L |].
      rewrite str_app_nil_l in E'. rewrite E in E'. apply str_app_inv_head in E'.
      specialize (Max mid' _ E' D' L).
      assert (T : query_tail (String q' ("v=" ++ tok' ++ rest')) = Some (Some tok'))
        by (apply query_tail_Some; now exists q', tok', rest').
      congruence.
  - intros (mid & tok & -> & (q & rest & Q & E & D & V) & Max).
    rewrite str_app_nil_l in E. subst s. rewrite strip_prefix_app.
    apply star_Some. exists mid, (String q ("v=" ++ tok ++ rest)).
    repeat split; try assumption.
    + apply query_tail_Some. now exists q, tok, rest.
    + intros mid' rest0 E' D' L.
      destruct (query_tail rest0) as [m|] eqn:T; [| reflexivity].
      apply query_tail_Some in T as (q' & tok' & rest' & -> & Q' & V' & ->).
      assert (L' : String.length mid' <= String.length mid).
      { apply (Max mid' tok'). exists q', rest'. repeat split; try assumption; try apply V'.
        rewrite str_app_nil_l. now rewrite E'. }
      lia.
Qed.

Lemma match_here_2_None (s : string) :
  re.match_here pattern_2 s = None <-> forall mid tok, ~ query_v s "" mid tok.
Proof.
  rewrite match_here_2_eq. split.
  - intros H mid tok (q & rest & Q & E & D & V).
    rewrite str_app_nil_l in E. subst s. rewrite strip_prefix_app in H.
    assert (T : query_tail (String q ("v=" ++ tok ++ rest)) = None)
      by (apply (proj1 (star_None _ _ _) H mid); [reflexivity | assumption]).
    assert (T' : query_tail (String q ("v=" ++ tok ++ rest)) = Some (Some tok))
      by (apply query_tail_Some; now exists q, tok, rest).
    congruence.
  - intros H.
    destruct (Str.strip_prefix "youtube.com/" s) as [s1|] eqn:E; [| reflexivity].
    apply strip_prefix_Some in E. apply star_None. intros mid rest0 E1 D.
    destruct (query_tail rest0) as [m|] eqn:T; [| reflexivity].
    apply query_tail_Some in T as (q & tok & rest & -> & Q & V & ->).
    destruct (H mid tok). exists q, rest. repeat split; try assumption; try apply V.
    rewrite str_app_nil_l. now rewrite E, E1.
Qed.

(* ================================================================== *)
(** * The two patterns searched through a URL *)

Lemma anchored_at (url pre tok : string) :
  anchored url pre tok <->
  exists s, url = pre ++ s /\ anchored s "" tok.
Proof.
  split.
  - intros A. pose proof A as (anchor & rest & _ & E & _).
    exists (anchor ++ tok ++ rest). split; [exact E |].
    rewrite E in A. now apply anchored_shift in A.
  - intros (s & -> & A). now apply anchored_shift.
Qed.

Lemma query_v_at (url pre mid tok : string) :
  query_v url pre mid tok <->
  exists s, url = pre ++ s /\ query_v s "" mid tok.
Proof.
  split.
  - intros A. pose proof A as (q & rest & _ & E & _).
    exists ("youtube.com/" ++ mid ++ String q ("v=" ++ tok ++ rest)).
    split; [exact E |].
    rewrite E in A. now apply query_v_shift in A.
  - intros (s & -> & A). now apply query_v_shift.
Qed.

Lemma search_1_None (url : string) :
  re.search pattern_1 url = None <-> forall pre tok, ~ anchored url pre tok.
Proof.
  rewrite search_None. split.
  - intros H pre tok A. apply anchored_at in A as (s & E & A).
    apply (proj1 (match_here_1_None s) (H pre s E) tok A).
  - intros H pre s E. apply match_here_1_None. intros tok A.
    apply (H pre tok). apply anchored_at. now exists s.
Qed.

Lemma search_1_Some (url : string) (m : re.captures) :
  re.search pattern_1 url = Some m <->
  exists pre tok,
    m = Some tok /\ anchored url pre tok
    /\ forall pre' tok', anchored url pre' tok' ->
         String.length pre <= String.length pre'.
Proof.
  rewrite search_Some. split.
  - intros (pre & s & E & R & Min).
    apply match_here_1_Some in R as (tok & -> & A).
    exists pre, tok. split; [reflexivity |]. split.
    + apply anchored_at. now exists s.
    + intros pre' tok' A'. apply anchored_at in A' as (s' & E' & A').
      destruct (Nat.le_gt_cases (String.length pre) (String.length pre'))
        as [L | L]; [exact L |].
      apply (proj1 (match_here_1_None s') (Min pre' s' E' L)) in A'.
      contradiction.
  - intros (pre & tok & -> & A & Min).
    apply anchored_at in A as (s & E & A).
    exists pre, s. split; [exact E |]. split.
    + apply match_here_1_Some. now exists tok.
    + intros pre' s' E' L. apply match_here_1_None. intros tok' A'.
      assert (String.length pre <= String.length pre'); [| lia].
      apply (Min pre' tok'). apply anchored_at. now exists s'.
Qed.

Lemma search_2_None (url : string) :
  re.search pattern_2 url = None <->
  forall pre mid tok, ~ query_v url pre mid tok.
Proof.
  rewrite search_None. split.
  - intros H pre mid tok A. apply query_v_at in A as (s & E & A).
    apply (proj1 (match_here_2_None s) (H pre s E) mid tok A).
  - intros H pre s E. apply match_here_2_None. intros mid tok A.
    apply (H pre mid tok). apply query_v_at. now exists s.
Qed.

Lemma search_2_Some (url : string) (m : re.captures) :
  re.search pattern_2 url = Some m <->
  exists pre mid tok,
    m = Some tok /\ query_v url pre mid tok
    /\ (forall pre' mid' tok', query_v url pre' mid' tok' ->
          String.length pre <= String.length pre')
    /\ (forall mid' tok', query_v url pre mid' tok' ->
          String.length mid' <= String.length mid).
Proof.
  rewrite search_Some. split.
  - intros (pre & s & E & R & Min).
    apply match_here_2_Some in R as (mid & tok & -> & A & Max).
    exists pre, mid, tok. split; [reflexivity |]. split; [| split].
    + apply query_v_at. now exists s.
    + intros pre' mid' tok' A'. apply query_v_at in A' as (s' & E' & A').
      destruct (Nat.le_gt_cases (String.length pre) (String.length pre'))
        as [L | L]; [exact L |].
      apply (proj1 (match_here_2_None s') (Min pre' s' E' L)) in A'.
      contradiction.
    + intros mid' tok' A'. apply query_v_at in A' as (s' & E' & A').
      rewrite E in E'. apply str_app_inv_head in E'. subst s'.
      now apply (Max mid' tok').
  - intros (pre & mid & tok & -> & A & Min & Max).
    apply query_v_at in A as (s & E & A).
    exists pre, s. split; [exact E |]. split.
    + apply match_here_2_Some. exists mid, tok.
      split; [reflexivity |]. split; [exact A |].
      intros mid' tok' A'. apply (Max mid' tok').
      apply query_v_at. now exists s.
    + intros pre' s' E' L. apply match_here_2_None. intros mid' tok' A'.
      assert (String.length pre <= String.length pre'); [| lia].
      apply (Min pre' mid' tok'). apply query_v_at. now exists s'.
Qed.

(** [_extract_video_id] returns exactly the token the patterns select. *)
Lemma extract_selected (url id : string) :
  _extract_video_id url = Ret id <-> selected url id.
Proof.
  unfold _extract_video_id, patterns, selected. cbn [first_match]. split.
  - intros H. destruct (re.search pattern_1 url) as [m|] eqn:R1.
    + injection H as <-. left.
      apply search_1_Some in R1 as (pre & tok & -> & A & Min).
      now exists pre.
    + destruct (re.search pattern_2 url) as [m|] eqn:R2; [| discriminate].
      injection H as <-. right. split; [now apply search_1_None |].
      apply search_2_Some in R2 as (pre & mid & tok & -> & A & Min & Max).
      now exists pre, mid.
  - intros [(pre & A & Min) | (No & pre & mid & A & Min & Max)].
    + assert (R1 : re.search pattern_1 url = Some (Some id))
        by (apply search_1_Some; now exists pre, id).
      now rewrite R1.
    + apply search_1_None in No. rewrite No.
      assert (R2 : re.search pattern_2 url = Some (Some id))
        by (apply search_2_Some; now exists pre, mid, id).
      now rewrite R2.
Qed.

(** It raises, with the one message it has, exactly when neither shape
    occurs anywhere in the URL. *)
Lemma extract_raises (url : string) (e : exn) :
  _extract_video_id url = Raise e <->
  e = ValueError no_video_id
  /\ (forall pre tok, ~ anchored url pre tok)
  /\ (forall pre mid tok, ~ query_v url pre mid tok).
Proof.
  unfold _extract_video_id, patterns. cbn [first_match]. split.
  - intros H. destruct (re.search pattern_1 url) as [m|] eqn:R1; [discriminate |].
    destruct (re.search pattern_2 url) as [m|] eqn:R2; [discriminate |].
    injection H as <-. split; [reflexivity |].
    split; [now apply search_1_None | now apply search_2_None].
  - intros (-> & N1 & N2). apply search_1_None in N1. apply search_2_None in N2.
    now rewrite N1, N2.
Qed.

(** No anchored token starts before position [n] when the first pattern
    has no match at any of the positions [0 .. n-1]. *)
Lemma leftmost_by_check (url : string) (n : nat) :
  forallb (fun i =>
    match re.match_here pattern_1 (Str.drop i url) with
    | None => true
    | Some _ => false
    end) (seq 0 n) = true ->
  forall pre' id', anchored url pre' id' -> n <= String.length pre'.
Proof.
  intros C pre' id' A.
  destruct (Nat.le_gt_cases n (String.length pre')) as [L | L]; [exact L |].
  apply anchored_at in A as (s & E & A).
  rewrite forallb_forall in C.
  specialize (C (String.length pre')).
  rewrite E, drop_app_exact in C.
  assert (R : re.match_here pattern_1 s = Some (Some id'))
    by (apply match_here_1_Some; now exists id').
  rewrite R in C.
  assert (false = true); [| discriminate].
  apply C. apply in_seq. lia.
Qed.

Lemma extract_total (url : string) :
  (exists id, _extract_video_id url = Ret id)
  \/ _extract_video_id url = Raise (ValueError no_video_id).
Proof.
  unfold _extract_video_id, patterns. cbn [first_match].
  destruct (re.search pattern_1 url); [left; eauto |].
  destruct (re.search pattern_2 url); [left; eauto | now right].
Qed.

(** A token of 11 or more class characters begins with an identifier. *)
Lemma long_token_prefix (tok rest : string) :
  11 <= String.length tok -> Str.all id_class tok = true ->
  is_video_id (Str.take 11 tok)
  /\ tok ++ rest = Str.take 11 tok ++ (Str.drop 11 tok ++ rest).
Proof.
  intros L A. rewrite <- str_app_assoc, take_drop. split; [| reflexivity].
  rewrite <- (take_drop 11 tok), all_app in A. apply andb_true_iff in A as [A _].
  split; [| exact A].
  pose proof (take_length_le 11 tok) as U.
  pose proof (f_equal String.length (take_drop 11 tok)) as E.
  rewrite str_length_app in E.
  assert (String.length (Str.drop 11 tok) = String.length tok - 11); [| lia].
  clear. generalize 11. intros n. revert tok.
  induction n as [|n IH]; intros [|c tok]; simpl; try lia. apply IH.
Qed.

(* ================================================================== *)
(** * Claims about [_extract_video_id] *)

(** C1, as stated, fails: a URL of a listed shape ([watch?v=ID], which also
    carries a [v=] query parameter, and [embed/ID]) with an 11-character
    identifier need not be accepted, because both patterns insist on
    [youtube.com/] or [youtu.be/] in front. *)
Lemma C1_listed_shape_rejected :
  listed_shape "https://example.com/watch?v=dQw4w9WgXcQ" "dQw4w9WgXcQ"
  /\ _extract_video_id "https://example.com/watch?v=dQw4w9WgXcQ"
     = Raise (ValueError no_video_id)
  /\ listed_shape "https://www.youtube-nocookie.com/embed/dQw4w9WgXcQ" "dQw4w9WgXcQ"
  /\ _extract_video_id "https://www.youtube-nocookie.com/embed/dQw4w9WgXcQ"
     = Raise (ValueError no_video_id)
  /\ ~ (forall url id, listed_shape url id -> _extract_video_id url = Ret id).
Proof.
  pure.
  assert (S1 : listed_shape "https://example.com/watch?v=dQw4w9WgXcQ" "dQw4w9WgXcQ").
  { exists "https://example.com/", "watch?v=", "".
    repeat split; simpl; tauto. }
  assert (S2 : listed_shape "https://www.youtube-nocookie.com/embed/dQw4w9WgXcQ"
                 "dQw4w9WgXcQ").
  { exists "https://www.youtube-nocookie.com/", "embed/", "".
    repeat split; simpl; tauto. }
  repeat split; try assumption; try reflexivity.
  intros H. specialize (H _ _ S1). discriminate H.
Qed.

(** C1 (amended).  [_extract_video_id] returns ID exactly when ID is the
    token its patterns select: the 11 class characters directly behind the
    leftmost anchor ([youtube.com/watch?v=], [youtu.be/],
    [youtube.com/embed/], [youtube.com/v/], [youtube.com/shorts/]) that has
    11 such characters behind it; or, when no anchor qualifies, the 11 class
    characters behind a [?v=] or [&v=] that follows a [youtube.com/] on the
    same line (leftmost [youtube.com/], last such parameter).  The first
    pattern has priority: an anchored token wins whatever [v=] parameters
    the URL has.  It raises [ValueError] with its fixed message exactly when
    the URL contains neither shape. *)
Theorem C1_extract_selects_token (url : string) :
  (forall id, _extract_video_id url = Ret id <-> selected url id)
  /\ (forall pre id,
        anchored url pre id ->
        (forall pre' id', anchored url pre' id' ->
           String.length pre <= String.length pre') ->
        _extract_video_id url = Ret id)
  /\ (forall e,
        _extract_video_id url = Raise e <->
        e = ValueError no_video_id
        /\ (forall pre tok, ~ anchored url pre tok)
        /\ (forall pre mid tok, ~ query_v url pre mid tok)).
Proof.
  split; [| split].
  - intros id. apply extract_selected.
  - intros pre id A Min. apply extract_selected. left. now exists pre.
  - intros e. apply extract_raises.
Qed.

(** C10.  A token of more than 11 class characters in a shape the patterns
    recognise never makes [_extract_video_id] fail, and when that token is
    the one the search reaches first the result is its first 11
    characters. *)
Theorem C10_long_token_prefix (url pre tok : string) :
  11 < String.length tok ->
  Str.all id_class tok = true ->
  (forall anchor rest,
     In anchor anchors ->
     url = pre ++ anchor ++ tok ++ rest ->
     (exists id, _extract_video_id url = Ret id)
     /\ ((forall pre' id', anchored url pre' id' ->
            String.length pre <= String.length pre') ->
         _extract_video_id url = Ret (Str.take 11 tok)))
  /\ (forall mid q rest,
        query_sep q = true ->
        Str.all re.dot mid = true ->
        url = pre ++ "youtube.com/" ++ mid ++ String q ("v=" ++ tok ++ rest) ->
        (exists id, _extract_video_id url = Ret id)
        /\ ((forall pre' id', ~ anchored url pre' id') ->
            (forall pre' mid' id', query_v url pre' mid' id' ->
               String.length pre <= String.length pre') ->
            (forall mid' id', query_v url pre mid' id' ->
               String.length mid' <= String.length mid) ->
            _extract_video_id url = Ret (Str.take 11 tok))).
Proof.
  intros L A. split.
  - intros anchor rest I E.
    destruct (long_token_prefix tok rest (Nat.lt_le_incl _ _ L) A) as [V Et].
    assert (An : anchored url pre (Str.take 11 tok)).
    { exists anchor, (Str.drop 11 tok ++ rest).
      split; [exact I |]. split; [| exact V]. now rewrite <- Et. }
    split.
    + destruct (extract_total url) as [Ok | Bad]; [exact Ok |].
      apply extract_raises in Bad as (_ & N1 & _). now destruct (N1 _ _ An).
    + intros Min. apply extract_selected. left. now exists pre.
  - intros mid q rest Q D E.
    destruct (long_token_prefix tok rest (Nat.lt_le_incl _ _ L) A) as [V Et].
    assert (Qv : query_v url pre mid (Str.take 11 tok)).
    { exists q, (Str.drop 11 tok ++ rest).
      split; [exact Q |]. split; [| split; [exact D | exact V]].
      now rewrite <- Et. }
    split.
    + destruct (extract_total url) as [Ok | Bad]; [exact Ok |].
      apply extract_raises in Bad as (_ & _ & N2). now destruct (N2 _ _ _ Qv).
    + intros No Min Max. apply extract_selected. right.
      split; [exact No |]. now exists pre, mid.
Qed.

Lemma C10_long_token_prefix_witness :
  _extract_video_id "https://youtu.be/dQw4w9WgXcQxyz" = Ret "dQw4w9WgXcQ".
Proof.
  pure.
  refine (proj2 (proj1 (C10_long_token_prefix
            "https://youtu.be/dQw4w9WgXcQxyz" "https://" "dQw4w9WgXcQxyz" _ _)
            "youtu.be/" "" _ _) _).
  - simpl; lia.
  - reflexivity.
  - simpl; tauto.
  - reflexivity.
  - apply (leftmost_by_check _ 8). reflexivity.
Defined.

(* ================================================================== *)
(** * Decimal text *)

Lemma digit_char_ok (d : Z) :
  (0 <= d < 10)%Z ->
  is_digit (digit_char d) = true /\ digit_val (digit_char d) = d.
Proof.
  intros H.
  assert (C : (d = 0 \/ d = 1 \/ d = 2 \/ d = 3 \/ d = 4 \/ d = 5 \/ d = 6
               \/ d = 7 \/ d = 8 \/ d = 9)%Z) by lia.
  repeat (destruct C as [-> | C]; [split; reflexivity |]).
  subst d. split; reflexivity.
Qed.

Lemma is_digit_val (c : ascii) :
  is_digit c = true -> (0 <= digit_val c <= 9)%Z.
Proof.
  unfold is_digit, in_range, digit_val. intros H.
  apply andb_true_iff in H as [L U].
  apply Nat.leb_le in L, U. lia.
Qed.

Lemma dec_value_app (a b : string) :
  dec_value (a ++ b)
  = (dec_value a * 10 ^ Z.of_nat (String.length b) + dec_value b)%Z.
Proof.
  induction a as [|c a IH]; simpl; [lia |].
  rewrite IH, str_length_app, Nat2Z.inj_add, Z.pow_add_r by lia. ring.
Qed.

Lemma dec_value_bound (s : string) :
  Str.all is_digit s = true ->
  (0 <= dec_value s < 10 ^ Z.of_nat (String.length s))%Z.
Proof.
  induction s as [|c s IH]; cbn [Str.all dec_value String.length]; intros A.
  - change (10 ^ Z.of_nat 0)%Z with 1%Z. lia.
  - apply andb_true_iff in A as [Dc A]. specialize (IH A).
    apply is_digit_val in Dc.
    rewrite Nat2Z.inj_succ, Z.pow_succ_r by lia.
    nia.
Qed.

Lemma digits_of_S (fuel : nat) (n : Z) (acc : string) :
  digits_of (S fuel) n acc
  = if (n <? 10)%Z then String (digit_char (n mod 10)) acc
    else digits_of fuel (n / 10) (String (digit_char (n mod 10)) acc).
Proof. reflexivity. Qed.

Lemma digits_of_spec (fuel : nat) :
  forall n acc, (0 <= n < 2 ^ Z.of_nat (S fuel))%Z ->
  exists ds,
    digits_of (S fuel) n acc = ds ++ acc
    /\ Str.all is_digit ds = true /\ dec_value ds = n
    /\ 1 <= String.length ds
    /\ (1 < String.length ds ->
        (10 ^ (Z.of_nat (String.length ds) - 1) <= n)%Z).
Proof.
  induction fuel as [|fuel IH]; intros n acc B.
  - assert (n < 10)%Z as L by (change (2 ^ Z.of_nat 1)%Z with 2%Z in B; lia).
    rewrite digits_of_S. apply Z.ltb_lt in L as L'. rewrite L'.
    destruct (digit_char_ok (n mod 10)) as [D V]; [apply Z.mod_pos_bound; lia |].
    exists (String (digit_char (n mod 10)) "").
    cbn [append Str.all dec_value String.length].
    change (10 ^ Z.of_nat 0)%Z with 1%Z.
    rewrite D, V, Z.mod_small by lia. repeat split; try lia.
  - rewrite digits_of_S. destruct (digit_char_ok (n mod 10)) as [D V];
      [apply Z.mod_pos_bound; lia |].
    destruct (n <? 10)%Z eqn:L.
    + apply Z.ltb_lt in L.
      exists (String (digit_char (n mod 10)) "").
      cbn [append Str.all dec_value String.length].
      change (10 ^ Z.of_nat 0)%Z with 1%Z.
      rewrite D, V, Z.mod_small by lia. repeat split; try lia.
    + apply Z.ltb_ge in L.
      assert (B' : (0 <= n / 10 < 2 ^ Z.of_nat (S fuel))%Z).
      { rewrite Nat2Z.inj_succ, Z.pow_succ_r in B by lia.
        split; [apply Z.div_pos; lia |].
        apply Z.div_lt_upper_bound; lia. }
      destruct (IH (n / 10)%Z (String (digit_char (n mod 10)) acc) B')
        as (ds & E & A & Vd & L1 & Lead).
      exists (ds ++ String (digit_char (n mod 10)) "").
      rewrite E, str_app_assoc. split; [reflexivity |].
      rewrite all_app, dec_value_app, str_length_app.
      cbn [Str.all dec_value String.length].
      change (10 ^ Z.of_nat 0)%Z with 1%Z. change (10 ^ Z.of_nat 1)%Z with 10%Z.
      rewrite A, D, V, Vd. repeat split; try lia.
      * pose proof (Z.div_mod n 10). lia.
      * intros _.
        replace (Z.of_nat (String.length ds + 1) - 1)%Z
          with (Z.succ (Z.of_nat (String.length ds) - 1))%Z by lia.
        rewrite Z.pow_succ_r by lia.
        pose proof (Z.div_mod n 10). pose proof (Z.mod_pos_bound n 10).
        destruct (Nat.eq_dec (String.length ds) 1) as [One | More].
        -- rewrite One. change (10 ^ (Z.of_nat 1 - 1))%Z with 1%Z. lia.
        -- assert (1 < String.length ds) as G by lia. specialize (Lead G). lia.
Qed.

(** [decimal n] is the decimal numeral of [n]: digits only, denoting [n],
    with no leading zero. *)
Lemma decimal_spec (n : Z) :
  (0 <= n)%Z ->
  Str.all is_digit (decimal n) = true /\ dec_value (decimal n) = n
  /\ 1 <= String.length (decimal n)
  /\ (1 < String.length (decimal n) ->
      (10 ^ (Z.of_nat (String.length (decimal n)) - 1) <= n)%Z).
Proof.
  intros N. unfold decimal.
  destruct (digits_of_spec (Z.to_nat (Z.log2 n)) n "") as (ds & E & A & V & L & Lead).
  - rewrite Nat2Z.inj_succ, Z2Nat.id by apply Z.log2_nonneg.
    destruct (Z.eq_dec n 0) as [-> | NZ]; [simpl; lia |].
    split; [lia |]. apply Z.log2_spec. lia.
  - rewrite E, str_app_nil_r. auto.
Qed.

Lemma dec_value_zeros (k : nat) (s : string) :
  dec_value (zeros k ++ s) = dec_value s /\ Str.all is_digit (zeros k) = true
  /\ String.length (zeros k) = k.
Proof.
  induction k as [|k (V & A & L)]; simpl; [auto |].
  rewrite V, A, L. change (digit_val "0") with 0%Z. repeat split; lia.
Qed.

(** [format_02d] renders a clock field. *)
Lemma format_02d_field (n : Z) : (0 <= n)%Z -> clock_field n (format_02d n).
Proof.
  intros N. unfold format_02d, zfill.
  apply Z.ltb_ge in N as N'. rewrite N'.
  destruct (decimal_spec n N) as (A & V & L & Lead).
  destruct (dec_value_zeros (2 - String.length (decimal n)) (decimal n))
    as (Vz & Az & Lz).
  unfold clock_field.
  rewrite all_app, Az, A, Vz, V, str_length_app, Lz.
  repeat split; try lia.
  intros G.
  replace (2 - String.length (decimal n) + String.length (decimal n))
    with (String.length (decimal n)) by lia.
  apply Lead. lia.
Qed.

(* ================================================================== *)
(** * Clock fields and their order *)

Lemma clock_field_small (n : Z) (f : string) :
  clock_field n f -> (n < 100)%Z -> String.length f = 2.
Proof.
  intros (_ & _ & L & Lead) N.
  destruct (Nat.eq_dec (String.length f) 2) as [E | NE]; [exact E |].
  assert (G : 2 < String.length f) by lia. specialize (Lead G).
  assert (10 ^ 2 <= 10 ^ (Z.of_nat (String.length f) - 1))%Z
    by (apply Z.pow_le_mono_r; lia).
  change (10 ^ 2)%Z with 100%Z in *. lia.
Qed.

Lemma clock_field_length_mono (a b : Z) (fa fb : string) :
  clock_field a fa -> clock_field b fb -> (a <= b)%Z ->
  String.length fa <= String.length fb.
Proof.
  intros (_ & _ & La & Lead) (Ab & Vb & Lb & _) AB.
  destruct (Nat.le_gt_cases (String.length fa) (String.length fb)) as [L | L];
    [exact L |].
  assert (G : 2 < String.length fa) by lia. specialize (Lead G).
  pose proof (dec_value_bound fb Ab) as B. rewrite Vb in B.
  assert (10 ^ Z.of_nat (String.length fb)
          <= 10 ^ (Z.of_nat (String.length fa) - 1))%Z
    by (apply Z.pow_le_mono_r; lia).
  lia.
Qed.

Lemma ascii_compare_digit_val (c d : ascii) :
  Ascii.compare c d = (digit_val c ?= digit_val d)%Z.
Proof.
  unfold Ascii.compare, digit_val, nat_of_ascii.
  rewrite !N_nat_Z, <- N2Z.inj_compare.
  generalize (Z.of_N (N_of_ascii c)) (Z.of_N (N_of_ascii d)). intros x y.
  destruct (Z.compare_spec x y), (Z.compare_spec (x - 48) (y - 48));
    try reflexivity; lia.
Qed.

(** Digit strings of one length compare as the numbers they denote. *)
Lemma digits_compare (x : string) :
  forall y, String.length x = String.length y ->
  Str.all is_digit x = true -> Str.all is_digit y = true ->
  String.compare x y = (dec_value x ?= dec_value y)%Z.
Proof.
  induction x as [|c x IH]; intros [|d y] L Ax Ay; try discriminate L.
  - reflexivity.
  - cbn [Str.all] in Ax, Ay.
    apply andb_true_iff in Ax as [Dc Ax]. apply andb_true_iff in Ay as [Dd Ay].
    injection L as L.
    cbn [String.compare dec_value]. rewrite ascii_compare_digit_val, <- L.
    pose proof (dec_value_bound x Ax) as Bx.
    pose proof (dec_value_bound y Ay) as By. rewrite <- L in By.
    specialize (IH y L Ax Ay).
    set (P := (10 ^ Z.of_nat (String.length x))%Z) in *.
    destruct (digit_val c ?= digit_val d)%Z eqn:C.
    + apply Z.compare_eq in C. rewrite C, IH.
      symmetry. apply Z.add_compare_mono_l.
    + rewrite Z.compare_lt_iff in C. symmetry. apply Z.compare_lt_iff. nia.
    + rewrite Z.compare_gt_iff in C. symmetry. apply Z.compare_gt_iff. nia.
Qed.

Lemma compare_refl (x : string) : String.compare x x = Eq.
Proof.
  induction x as [|c x IH]; [reflexivity |].
  cbn [String.compare]. unfold Ascii.compare. now rewrite N.compare_refl.
Qed.

Lemma compare_app (x : string) :
  forall y u v, String.length x = String.length y ->
  String.compare (x ++ u) (y ++ v)
  = match String.compare x y with
    | Eq => String.compare u v
    | r => r
    end.
Proof.
  induction x as [|c x IH]; intros [|d y] u v L; try discriminate L.
  - reflexivity.
  - injection L as L. cbn [append String.compare].
    destruct (Ascii.compare c d); try reflexivity. now apply IH.
Qed.

(** Two fields of one length, each followed by more text. *)
Lemma compare_fields (a b : Z) (fa fb u v : string) :
  clock_field a fa -> clock_field b fb ->
  String.length fa = String.length fb ->
  String.compare (fa ++ u) (fb ++ v)
  = match (a ?= b)%Z with
    | Eq => String.compare u v
    | r => r
    end.
Proof.
  intros (Aa & Va & _) (Ab & Vb & _) L.
  rewrite (compare_app fa fb u v L), (digits_compare fa fb L Aa Ab), Va, Vb.
  reflexivity.
Qed.

Lemma compare_colon (u v : string) :
  String.compare (":" ++ u) (":" ++ v) = String.compare u v.
Proof. reflexivity. Qed.

Lemma compare_last_field (a b : Z) (fa fb : string) :
  clock_field a fa -> clock_field b fb ->
  String.length fa = String.length fb ->
  String.compare fa fb = (a ?= b)%Z.
Proof.
  intros (Aa & Va & _) (Ab & Vb & _) L.
  now rewrite (digits_compare fa fb L Aa Ab), Va, Vb.
Qed.

(** Hours, minutes and seconds of a non-negative count of seconds. *)
Lemma hms_bounds (t : Z) :
  (0 <= t)%Z ->
  (0 <= t / 3600 /\ 0 <= (t mod 3600) / 60 < 60 /\ 0 <= t mod 60 < 60
   /\ t = 3600 * (t / 3600) + 60 * ((t mod 3600) / 60) + t mod 60)%Z.
Proof. pure. intros N. Z.div_mod_to_equations. lia. Qed.

(* ================================================================== *)
(** * Floats: the integer part *)

(** Every finite float has an integer part, and nothing else has. *)
Lemma float_trunc_finite (x : spec_float) (v : Q) :
  finite_value x v -> exists t, float_trunc x = Some t.
Proof.
  unfold finite_value. destruct x; simpl; intros H; try discriminate; eauto.
Qed.

Lemma pow2_pos (e : Z) :
  (e < 0)%Z -> Z.pos (Pos.pow 2 (Z.to_pos (- e))) = (2 ^ (- e))%Z.
Proof.
  intros E. rewrite Pos2Z.inj_pow, Z2Pos.id by lia. reflexivity.
Qed.

(** On a non-negative finite float the integer part is the floor of the
    value: the fraction is dropped, never rounded up. *)
Lemma float_trunc_floor (x : spec_float) (v : Q) (t : Z) :
  finite_value x v -> (0 <= v)%Q -> float_trunc x = Some t ->
  (inject_Z t <= v)%Q /\ (v < inject_Z (t + 1))%Q.
Proof.
  unfold finite_value.
  destruct x as [s | s | | s m e]; cbn [float_value float_trunc];
    try discriminate.
  - intros [= <-] _ [= <-]. split; [unfold Qle | unfold Qlt]; simpl; lia.
  - intros V N T.
    destruct (0 <=? e)%Z eqn:E.
    + apply Z.leb_le in E.
      assert (P : (0 < 2 ^ e)%Z) by (apply Z.pow_pos_nonneg; lia).
      destruct s.
      * exfalso. assert (Hv : inject_Z (Z.neg m * 2 ^ e) = v) by congruence.
        subst v. rewrite <- (Zle_Qle 0) in N.
        pose proof (Pos2Z.neg_is_neg m). nia.
      * assert (Hv : inject_Z (Z.pos m * 2 ^ e) = v) by congruence.
        assert (Ht : (Z.pos m * 2 ^ e)%Z = t) by congruence.
        subst v t. rewrite <- Zle_Qle, <- Zlt_Qlt. lia.
    + apply Z.leb_gt in E.
      assert (P : (0 < 2 ^ (- e))%Z) by (apply Z.pow_pos_nonneg; lia).
      destruct s.
      * exfalso. assert (Hv : (Z.neg m # 2 ^ Z.to_pos (- e))%Q = v) by congruence.
        subst v. unfold Qle in N. cbn [Qnum Qden] in N.
        pose proof (Pos2Z.neg_is_neg m). lia.
      * assert (Hv : (Z.pos m # 2 ^ Z.to_pos (- e))%Q = v) by congruence.
        assert (Ht : (Z.pos m / 2 ^ (- e))%Z = t) by congruence.
        subst v t.
        unfold Qle, Qlt, inject_Z. cbn [Qnum Qden].
        rewrite (pow2_pos e E).
        pose proof (Z.div_mod (Z.pos m) (2 ^ (- e)) ltac:(lia)) as DM.
        pose proof (Z.mod_pos_bound (Z.pos m) (2 ^ (- e)) P) as MB.
        split; nia.
Qed.

(** The integer part is monotone on non-negative finite floats. *)
Lemma float_trunc_mono (a b : spec_float) (va vb : Q) (ta tb : Z) :
  finite_value a va -> finite_value b vb ->
  (0 <= va)%Q -> (va <= vb)%Q ->
  float_trunc a = Some ta -> float_trunc b = Some tb ->
  (0 <= ta <= tb)%Z.
Proof.
  intros Fa Fb Na AB Ta Tb.
  destruct (float_trunc_floor a va ta Fa Na Ta) as [La Ua].
  assert (Nb : (0 <= vb)%Q) by (eapply Qle_trans; eassumption).
  destruct (float_trunc_floor b vb tb Fb Nb Tb) as [Lb Ub].
  assert (H1 : (inject_Z ta < inject_Z (tb + 1))%Q).
  { eapply Qle_lt_trans; [exact La |]. eapply Qle_lt_trans; eassumption. }
  assert (H0 : (inject_Z 0 < inject_Z (ta + 1))%Q).
  { eapply Qle_lt_trans; [exact Na | exact Ua]. }
  rewrite <- Zlt_Qlt in H1, H0. lia.
Qed.

(* ================================================================== *)
(** * [_format_time] *)

Lemma format_time_float (x : spec_float) (t : Z) :
  float_trunc x = Some t -> _format_time (PFloat x) = _format_time (PInt t).
Proof. intros T. unfold _format_time, py_int. now rewrite T. Qed.

(** On a non-negative count of whole seconds [_format_time] returns the
    clock text. *)
Lemma format_time_clock (t : Z) :
  (0 <= t)%Z -> exists out, _format_time (PInt t) = Ret out /\ clock_text t out.
Proof.
  intros N. destruct (hms_bounds t N) as (H & M & S & _).
  unfold _format_time, py_int, obind.
  destruct (t / 3600 >? 0)%Z eqn:G; eexists; (split; [reflexivity |]);
    exists (format_02d (t / 3600)), (format_02d ((t mod 3600) / 60)),
           (format_02d (t mod 60));
    repeat (split; [apply format_02d_field; lia |]).
  - apply Z.gtb_lt in G.
    destruct (Z.eqb_spec (t / 3600) 0) as [E | _]; [lia | reflexivity].
  - rewrite Z.gtb_ltb in G. apply Z.ltb_ge in G.
    destruct (Z.eqb_spec (t / 3600) 0) as [_ | E]; [reflexivity | lia].
Qed.

Lemma clock_field_unique (n : Z) (f f' : string) :
  clock_field n f -> clock_field n f' -> f = f'.
Proof.
  intros F F'.
  assert (L : String.length f = String.length f').
  { apply Nat.le_antisymm; eapply clock_field_length_mono; eauto; lia. }
  apply String.compare_eq_iff.
  rewrite (compare_last_field n n f f' F F' L). apply Z.compare_refl.
Qed.

(** The clock text of a count of seconds is unique. *)
Lemma clock_text_unique (t : Z) (out out' : string) :
  clock_text t out -> clock_text t out' -> out = out'.
Proof.
  intros (fh & fm & fs & Fh & Fm & Fs & ->) (fh' & fm' & fs' & Fh' & Fm' & Fs' & ->).
  rewrite (clock_field_unique _ _ _ Fh Fh'), (clock_field_unique _ _ _ Fm Fm'),
    (clock_field_unique _ _ _ Fs Fs').
  reflexivity.
Qed.

Lemma leb_of_compare (a b : string) :
  String.compare a b <> Gt -> String.leb a b = true.
Proof. unfold String.leb. destruct (String.compare a b); congruence. Qed.

(** Clock texts grow with the count: never shorter, and in lexicographic
    order whenever the lengths agree. *)
Lemma clock_text_order (t1 t2 : Z) (o1 o2 : string) :
  (0 <= t1 <= t2)%Z -> clock_text t1 o1 -> clock_text t2 o2 ->
  String.length o1 <= String.length o2
  /\ (String.length o1 = String.length o2 -> String.leb o1 o2 = true)
  /\ ((t2 < 3600)%Z -> String.leb o1 o2 = true).
Proof.
  intros T (fh1 & fm1 & fs1 & Fh1 & Fm1 & Fs1 & ->)
           (fh2 & fm2 & fs2 & Fh2 & Fm2 & Fs2 & ->).
  destruct (hms_bounds t1 ltac:(lia)) as (H1 & M1 & S1 & E1).
  destruct (hms_bounds t2 ltac:(lia)) as (H2 & M2 & S2 & E2).
  assert (HH : (t1 / 3600 <= t2 / 3600)%Z) by (apply Z.div_le_mono; lia).
  pose proof (clock_field_small _ _ Fm1 ltac:(lia)) as Lm1.
  pose proof (clock_field_small _ _ Fm2 ltac:(lia)) as Lm2.
  pose proof (clock_field_small _ _ Fs1 ltac:(lia)) as Ls1.
  pose proof (clock_field_small _ _ Fs2 ltac:(lia)) as Ls2.
  pose proof (clock_field_length_mono _ _ _ _ Fh1 Fh2 HH) as Lh.
  assert (Lh1 : 2 <= String.length fh1) by apply Fh1.
  assert (Lh2 : 2 <= String.length fh2) by apply Fh2.
  assert (MS : String.compare (fm1 ++ ":" ++ fs1) (fm2 ++ ":" ++ fs2)
               = match ((t1 mod 3600) / 60 ?= (t2 mod 3600) / 60)%Z with
                 | Eq => (t1 mod 60 ?= t2 mod 60)%Z
                 | r => r
                 end).
  { rewrite (compare_fields _ _ fm1 fm2 _ _ Fm1 Fm2) by lia.
    rewrite compare_colon, (compare_last_field _ _ fs1 fs2 Fs1 Fs2) by lia.
    reflexivity. }
  destruct (Z.eqb_spec (t1 / 3600) 0) as [Z1 | NZ1];
    destruct (Z.eqb_spec (t2 / 3600) 0) as [Z2 | NZ2];
    rewrite ?str_length_app; cbn [String.length]; rewrite ?str_length_app;
    cbn [String.length].
  - assert (Le : String.leb (fm1 ++ ":" ++ fs1) (fm2 ++ ":" ++ fs2) = true).
    { apply leb_of_compare. rewrite MS.
      destruct (Z.compare_spec ((t1 mod 3600) / 60) ((t2 mod 3600) / 60));
        [| discriminate | lia].
      destruct (Z.compare_spec (t1 mod 60) (t2 mod 60)); try discriminate. lia. }
    repeat split; [lia | auto | auto].
  - repeat split; lia.
  - lia.
  - split; [lia |]. split; [| lia].
    intros L. apply leb_of_compare.
    rewrite (compare_fields _ _ fh1 fh2 _ _ Fh1 Fh2) by lia.
    rewrite compare_colon, MS.
    destruct (Z.compare_spec (t1 / 3600) (t2 / 3600)); [| discriminate | lia].
    destruct (Z.compare_spec ((t1 mod 3600) / 60) ((t2 mod 3600) / 60));
      [| discriminate | lia].
    destruct (Z.compare_spec (t1 mod 60) (t2 mod 60)); try discriminate. lia.
Qed.

(** C4.  On every non-negative finite float [_format_time] drops the
    fraction (the count [t] of whole seconds is the floor of the value),
    splits [t] by division and remainder with 3600 and 60, and returns
    MM:SS when the hours are zero and HH:MM:SS otherwise, each field in
    decimal padded with zeros to two digits; the same on a non-negative
    [int].  So format(0) is 00:00, format(65) is 01:05, format(3661) is
    01:01:01 and format(59.9) is 00:59. *)
Theorem C4_format_time_clock :
  (forall x v, finite_value x v -> (0 <= v)%Q ->
     exists t out,
       (inject_Z t <= v)%Q /\ (v < inject_Z (t + 1))%Q
       /\ _format_time (PFloat x) = Ret out /\ clock_text t out)
  /\ (forall t, (0 <= t)%Z ->
        exists out, _format_time (PInt t) = Ret out /\ clock_text t out)
  /\ _format_time (PInt 0) = Ret "00:00"
  /\ _format_time (PInt 65) = Ret "01:05"
  /\ _format_time (PInt 3661) = Ret "01:01:01"
  /\ _format_time (PFloat float_59_9) = Ret "00:59".
Proof.
  split; [| split; [exact format_time_clock | repeat split; reflexivity]].
  intros x v F N.
  destruct (float_trunc_finite x v F) as [t T].
  destruct (float_trunc_floor x v t F N T) as [Lo Hi].
  assert (Nt : (0 <= t)%Z).
  { assert (H : (inject_Z 0 < inject_Z (t + 1))%Q)
      by (eapply Qle_lt_trans; [exact N | exact Hi]).
    rewrite <- Zlt_Qlt in H. lia. }
  destruct (format_time_clock t Nt) as (out & R & C).
  exists t, out. rewrite (format_time_float x t T). auto.
Qed.

(** C5 (amended).  [_format_time] never fails on a non-negative finite
    float, and for such a <= b the text for a is never longer than the text
    for b and, whenever the two have the same length, is at or before it in
    lexicographic order; that is always so when b is below one hour. *)
Theorem C5_format_time_order (a b : spec_float) (va vb : Q) :
  finite_value a va -> finite_value b vb ->
  (0 <= va)%Q -> (va <= vb)%Q ->
  exists sa sb,
    _format_time (PFloat a) = Ret sa /\ _format_time (PFloat b) = Ret sb
    /\ String.length sa <= String.length sb
    /\ (String.length sa = String.length sb -> String.leb sa sb = true)
    /\ ((vb < 3600)%Q -> String.leb sa sb = true).
Proof.
  intros Fa Fb Na AB.
  destruct (float_trunc_finite a va Fa) as [ta Ta].
  destruct (float_trunc_finite b vb Fb) as [tb Tb].
  pose proof (float_trunc_mono a b va vb ta tb Fa Fb Na AB Ta Tb) as Mono.
  destruct (format_time_clock ta ltac:(lia)) as (sa & Ra & Ca).
  destruct (format_time_clock tb ltac:(lia)) as (sb & Rb & Cb).
  destruct (clock_text_order ta tb sa sb Mono Ca Cb) as (L & Same & Small).
  exists sa, sb.
  rewrite (format_time_float a ta Ta), (format_time_float b tb Tb).
  repeat split; try assumption.
  intros B. apply Small.
  assert (Nb : (0 <= vb)%Q) by (eapply Qle_trans; eassumption).
  destruct (float_trunc_floor b vb tb Fb Nb Tb) as [Lo _].
  assert (H : (inject_Z tb < inject_Z 3600)%Q)
    by (eapply Qle_lt_trans; [exact Lo | exact B]).
  now rewrite <- Zlt_Qlt in H.
Qed.

(* ================================================================== *)
(** * Dictionaries *)

Lemma dict_get_set_same (d : Dict.t) (k : string) (v : pyval) :
  Dict.get (Dict.set d k v) k = Some v.
Proof.
  induction d as [|[k' v'] d IH]; simpl.
  - now rewrite String.eqb_refl.
  - destruct (String.eqb k' k) eqn:E; simpl; rewrite E; [reflexivity | exact IH].
Qed.

Lemma dict_get_set_other (d : Dict.t) (k k0 : string) (v : pyval) :
  k0 <> k -> Dict.get (Dict.set d k v) k0 = Dict.get d k0.
Proof.
  intros N. induction d as [|[k' v'] d IH]; simpl.
  - destruct (String.eqb_spec k k0); [congruence | reflexivity].
  - destruct (String.eqb_spec k' k) as [-> | NE]; simpl.
    + destruct (String.eqb_spec k k0); [congruence | reflexivity].
    + destruct (String.eqb k' k0); [reflexivity | exact IH].
Qed.

(** Setting a key the dictionary has keeps every key in its place. *)
Lemma dict_keys_set_present (d : Dict.t) (k : string) (v w : pyval) :
  Dict.get d k = Some w -> Dict.keys (Dict.set d k v) = Dict.keys d.
Proof.
  unfold Dict.keys. induction d as [|[k' v'] d IH]; simpl; [discriminate |].
  destruct (String.eqb k' k); simpl; [reflexivity |].
  intros G. now rewrite IH.
Qed.

(* ================================================================== *)
(** * Effects: what leaves the trace alone *)

Lemma silent_ret {A} (a : A) : silent (ret a).
Proof. intros tr. reflexivity. Qed.

Lemma silent_raise {A} (e : exn) : silent (@raise A e).
Proof. intros tr. reflexivity. Qed.

Lemma silent_lift {A} (o : outcome A) : silent (lift o).
Proof. intros tr. reflexivity. Qed.

Lemma silent_bind {A B} (c : M A) (k : A -> M B) :
  silent c -> (forall a, silent (k a)) -> silent (bind c k).
Proof.
  intros Sc Sk tr. unfold bind. specialize (Sc tr).
  destruct (c tr) as [[a | e] tr']; simpl in *; subst tr'; [apply Sk | reflexivity].
Qed.

Lemma silent_if {A} (b : bool) (c1 c2 : M A) :
  silent c1 -> silent c2 -> silent (if b then c1 else c2).
Proof. now destruct b. Qed.

Lemma bind_lift_Ret {A B} (o : outcome A) (a : A) (k : A -> M B) (tr : list event) :
  o = Ret a -> bind (lift o) k tr = k a tr.
Proof. intros ->. reflexivity. Qed.

Lemma bind_lift_Raise {A B} (o : outcome A) (e : exn) (k : A -> M B)
  (tr : list event) :
  o = Raise e -> bind (lift o) k tr = (Raise e, tr).
Proof. intros ->. reflexivity. Qed.

(* ================================================================== *)
(** * [get_video_details] *)

(** Whatever it returns or raises, [get_video_details] issues exactly one
    request, the GET of the videos endpoint, and nothing else. *)
Lemma get_video_details_trace (video_id : string) (tr : list event) :
  snd (get_video_details video_id tr)
  = (tr ++ [HttpGet metadata_url (metadata_params video_id)])%list.
Proof.
  unfold get_video_details.
  change (YOUTUBE_API_BASE ++ "/videos") with metadata_url.
  change [("part", "snippet,statistics,contentDetails"); ("id", video_id);
          ("key", YOUTUBE_API_KEY)] with (metadata_params video_id).
  unfold bind at 1. unfold emit at 1.
  match goal with
  | |- snd (?c ?t) = ?t => enough (S : silent c) by apply S
  end.
  repeat first
    [ apply silent_ret | apply silent_raise | apply silent_lift
    | apply silent_if
    | apply silent_bind; [| intros ?] ].
Qed.

Lemma py_get_dict (d : Dict.t) (k : string) (default : pyval) :
  py_get (PDict d) k default = Ret (field_or d k default).
Proof. reflexivity. Qed.

Lemma py_get_facet (info : Dict.t) (name : string) (f : Dict.t) :
  facet info name f -> py_get (PDict info) name (PDict []) = Ret (PDict f).
Proof.
  unfold py_get. intros [[N ->] | S]; [now rewrite N | now rewrite S].
Qed.

(** C7.  [get_video_details] raises the backend error (with the status in
    its message) on every response whose status is not 200, raises "video
    not found" when a 200 response has no [items] or an empty list of
    them, and otherwise returns the eight fields, each taken from its own
    facet of the first item or replaced by its own default (the empty
    string, or "0" for the three counts) when the facet or the field is
    missing. *)
Theorem C7_get_video_details (video_id : string) (tr : list event)
  (r : response) :
  session_get metadata_url (metadata_params video_id) = Ret r ->
  let tr' := (tr ++ [HttpGet metadata_url (metadata_params video_id)])%list in
  (status r <> 200%Z ->
     get_video_details video_id tr = (Raise (BackendError (status r)), tr'))
  /\ (forall d,
        status r = 200%Z -> json r = Ret (PDict d) ->
        Dict.get d "items" = None \/ Dict.get d "items" = Some (PList []) ->
        get_video_details video_id tr = (Raise VideoNotFound, tr'))
  /\ (forall d info more snippet statistics content_details,
        status r = 200%Z -> json r = Ret (PDict d) ->
        Dict.get d "items" = Some (PList (PDict info :: more)) ->
        facet info "snippet" snippet ->
        facet info "statistics" statistics ->
        facet info "contentDetails" content_details ->
        get_video_details video_id tr =
        (Ret (PDict
           [ ("title", field_or snippet "title" (PStr ""));
             ("description", field_or snippet "description" (PStr ""));
             ("channel_title", field_or snippet "channelTitle" (PStr ""));
             ("published_at", field_or snippet "publishedAt" (PStr ""));
             ("duration", field_or content_details "duration" (PStr ""));
             ("view_count", field_or statistics "viewCount" (PStr "0"));
             ("like_count", field_or statistics "likeCount" (PStr "0"));
             ("comment_count", field_or statistics "commentCount" (PStr "0")) ]),
         tr')).
Proof.
  intros G tr'. subst tr'.
  assert (Open : forall k : response -> M pyval,
            bind (emit (HttpGet metadata_url (metadata_params video_id)))
              (fun _ => bind (lift (session_get metadata_url
                                      (metadata_params video_id))) k) tr
            = k r (tr ++ [HttpGet metadata_url (metadata_params video_id)])%list).
  { intros k. unfold bind at 1, emit. now rewrite (bind_lift_Ret _ r _ _ G). }
  unfold get_video_details.
  change (YOUTUBE_API_BASE ++ "/videos") with metadata_url.
  change [("part", "snippet,statistics,contentDetails"); ("id", video_id);
          ("key", YOUTUBE_API_KEY)] with (metadata_params video_id).
  rewrite Open. clear Open.
  split; [| split].
  - intros NS. destruct (Z.eqb_spec (status r) 200) as [E | _]; [contradiction |].
    reflexivity.
  - intros d S J I. rewrite S. cbn [Z.eqb Pos.eqb negb].
    rewrite (bind_lift_Ret _ _ _ _ J).
    unfold py_get at 1.
    destruct I as [I | I]; rewrite I; reflexivity.
  - intros d info more snippet statistics content_details S J I Fs Ft Fc.
    rewrite S. cbn [Z.eqb Pos.eqb negb].
    rewrite (bind_lift_Ret _ _ _ _ J).
    unfold py_get at 1. rewrite I.
    rewrite (bind_lift_Ret _ _ _ _ eq_refl). cbn [truthy negb].
    unfold py_getitem. rewrite I.
    rewrite (bind_lift_Ret _ _ _ _ eq_refl).
    rewrite (bind_lift_Ret _ (PDict info) _ _ eq_refl).
    rewrite (bind_lift_Ret _ _ _ _ (py_get_facet _ _ _ Fs)).
    rewrite (bind_lift_Ret _ _ _ _ (py_get_facet _ _ _ Ft)).
    rewrite (bind_lift_Ret _ _ _ _ (py_get_facet _ _ _ Fc)).
    reflexivity.
Qed.

(* ================================================================== *)
(** * [get_youtube_video_transcript] *)

Lemma comprehension_Ret {A B} (f : A -> outcome B) (l : list A) (l' : list B) :
  comprehension f l = Ret l' <-> Forall2 (fun x y => f x = Ret y) l l'.
Proof.
  revert l'; induction l as [|x l IH]; intros l'; simpl.
  - split.
    + intros [= <-]. constructor.
    + intros H. inversion H. reflexivity.
  - split.
    + intros H. destruct (f x) as [y | e] eqn:Fx; [| discriminate].
      simpl in H. destruct (comprehension f l) as [ys | e] eqn:C; [| discriminate].
      injection H as <-. constructor; [exact Fx | now apply IH].
    + intros H. inversion H as [| ? y ? ys Fx R]; subst.
      rewrite Fx. simpl. apply IH in R. now rewrite R.
Qed.

(** A URL without an identifier: the error result, one log line, no
    backend call. *)
Lemma lookup_invalid (url : string) (e : exn) (tr : list event) :
  _extract_video_id url = Raise e ->
  get_youtube_video_transcript url tr
  = (Ret (error_result ("Invalid YouTube URL: " ++ no_video_id)),
     (tr ++ [ log_invalid (ValueError no_video_id) ])%list).
Proof.
  intros X. destruct (extract_total url) as [[id Ok] | Bad]; [congruence |].
  unfold get_youtube_video_transcript, try_except.
  rewrite (bind_lift_Raise _ _ _ _ Bad). reflexivity.
Qed.

(** The transcript attempt succeeds: the transcript result, no metadata
    request. *)
Lemma lookup_transcript (url id : string) (segments : list pyval)
  (tr : list event) :
  _extract_video_id url = Ret id ->
  transcript_attempt id = Ret segments ->
  get_youtube_video_transcript url tr
  = (Ret (transcript_result id segments), attempted tr id).
Proof.
  intros X T. unfold transcript_attempt in T.
  destruct (fetch_raw_data id TRANSCRIPT_LANGUAGES) as [raw | e] eqn:F;
    [| discriminate].
  simpl in T.
  unfold get_youtube_video_transcript, try_except at 1.
  rewrite (bind_lift_Ret _ _ _ _ X).
  unfold bind at 1, emit at 1, try_except, bind at 1, emit at 1.
  rewrite (bind_lift_Ret _ _ _ _ F), (bind_lift_Ret _ _ _ _ T).
  unfold ret, attempted, log_executing. now rewrite <- app_assoc.
Qed.

(** The transcript attempt fails: one warning, then [get_video_details];
    its answer becomes the details result, its failure an error result. *)
Lemma lookup_fallback (url id : string) (e : exn) (tr : list event) :
  _extract_video_id url = Ret id ->
  transcript_attempt id = Raise e ->
  get_youtube_video_transcript url tr
  = match get_video_details id (attempted tr id ++ [ log_fallback e ])%list with
    | (Ret details, tr') => (Ret (details_result id details), tr')
    | (Raise e', tr') => failure_result url e' tr'
    end.
Proof.
  intros X T. unfold transcript_attempt in T.
  unfold get_youtube_video_transcript, try_except at 1.
  rewrite (bind_lift_Ret _ _ _ _ X).
  unfold bind at 1, emit at 1, try_except, bind at 1, emit at 1.
  assert (E : forall B (k : list pyval -> M B) t,
            bind (lift (fetch_raw_data id TRANSCRIPT_LANGUAGES))
              (fun raw => bind (lift (comprehension format_segment raw)) k) t
            = (Raise e, t)).
  { intros B k t. unfold bind, lift.
    destruct (fetch_raw_data id TRANSCRIPT_LANGUAGES) as [raw | e0];
      simpl in T; [now rewrite T | congruence]. }
  rewrite E. cbn [dispatch isinstance_Exception].
  unfold bind at 1, emit at 1. unfold bind at 1.
  unfold attempted, log_executing, log_fallback.
  rewrite <- !app_assoc. cbn [app].
  match goal with
  | |- context [get_video_details id ?t] =>
      destruct (get_video_details id t) as [[details | e'] tr']
  end.
  - reflexivity.
  - unfold failure_result, isinstance_ValueError, log_invalid, log_failed.
    cbn [dispatch]. unfold isinstance_ValueError, isinstance_Exception.
    destruct (exn_is_ValueError e'); reflexivity.
Qed.

Lemma transcript_attempt_shape (id : string) (segments : list pyval) :
  transcript_attempt id = Ret segments ->
  exists raw,
    fetch_raw_data id TRANSCRIPT_LANGUAGES = Ret raw
    /\ Forall2 (fun x y => format_segment x = Ret y) raw segments.
Proof.
  unfold transcript_attempt. intros T.
  destruct (fetch_raw_data id TRANSCRIPT_LANGUAGES) as [raw | e]; [| discriminate].
  exists raw. split; [reflexivity |]. now apply comprehension_Ret.
Qed.

(** Whatever the URL and the backends do, a lookup returns, and what it
    returns has one of the three shapes. *)
Lemma lookup_returns (url : string) (tr : list event) :
  exists r tr',
    get_youtube_video_transcript url tr = (Ret r, tr') /\ lookup_shape r.
Proof.
  destruct (_extract_video_id url) as [id | e] eqn:X.
  - destruct (transcript_attempt id) as [segments | e] eqn:T.
    + rewrite (lookup_transcript url id segments tr X T).
      do 2 eexists. split; [reflexivity |]. left.
      destruct (transcript_attempt_shape id segments T) as (raw & F & A).
      now exists id, raw, segments.
    + rewrite (lookup_fallback url id e tr X T).
      destruct (get_video_details id _) as [[details | e'] tr'].
      * do 2 eexists. split; [reflexivity |]. right. left.
        now exists id, details.
      * unfold failure_result. destruct (exn_is_ValueError e');
          do 2 eexists; (split; [reflexivity |]); right; right; eexists;
          reflexivity.
  - rewrite (lookup_invalid url e tr X).
    do 2 eexists. split; [reflexivity |]. right. right. eexists. reflexivity.
Qed.

(** C2.  A lookup never raises: on every URL and from every trace it
    returns a value of one of the three shapes, which exclude one another,
    and a transcript it returns is the backend's whole list with every
    segment formatted.  On "not a url" the result is the error with the
    fixed message. *)
Theorem C2_lookup_never_raises (tr : list event) :
  (forall url, exists r tr',
     get_youtube_video_transcript url tr = (Ret r, tr') /\ lookup_shape r)
  /\ (forall id segments id' details message,
        transcript_result id segments <> details_result id' details
        /\ transcript_result id segments <> error_result message
        /\ details_result id' details <> error_result message)
  /\ fst (get_youtube_video_transcript "not a url" tr)
     = Ret (PDict
         [ ("error",
            PStr "Invalid YouTube URL: No valid YouTube video ID found in URL") ]).
Proof.
  split; [| split; [intros; repeat split; discriminate |]].
  - intros url. apply lookup_returns.
  - rewrite (lookup_invalid "not a url" (ValueError no_video_id) tr); reflexivity.
Qed.

(** Every number [int] accepts is formatted without failure. *)
Lemma format_time_number (v : pyval) :
  finite_number v -> exists shown, _format_time v = Ret shown.
Proof.
  intros [(x & q & -> & F) | (z & ->)].
  - destruct (float_trunc_finite x q F) as [t T].
    rewrite (format_time_float x t T).
    unfold _format_time, py_int, obind. destruct (_ >? _)%Z; eauto.
  - unfold _format_time, py_int, obind. destruct (_ >? _)%Z; eauto.
Qed.

(** A segment that [format_segment] accepts comes back with its [start]
    replaced and nothing else touched. *)
Lemma format_segment_Ret (raw seg : pyval) :
  format_segment raw = Ret seg -> formatted_from raw seg.
Proof.
  unfold format_segment. destruct raw as [| | | | | |d]; try discriminate.
  cbn [py_unpack obind py_getitem].
  destruct (Dict.get d "start") as [start |] eqn:G; [| discriminate].
  cbn [obind]. destruct (_format_time start) as [shown | e] eqn:F; [| discriminate].
  cbn [obind]. intros [= <-].
  exists d, (Dict.set d "start" (PStr shown)), start, shown.
  repeat split; try assumption.
  - apply dict_get_set_same.
  - now apply dict_keys_set_present with (w := start).
  - intros k N. now apply dict_get_set_other.
Qed.

Lemma format_segment_well_formed (raw : pyval) :
  well_formed_segment raw -> exists seg, format_segment raw = Ret seg.
Proof.
  intros (d & start & -> & G & N).
  destruct (format_time_number start N) as [shown F].
  unfold format_segment. cbn [py_unpack obind py_getitem].
  rewrite G. cbn [obind]. rewrite F. cbn [obind]. eauto.
Qed.

Lemma comprehension_well_formed (raw : list pyval) :
  Forall well_formed_segment raw ->
  exists segments, comprehension format_segment raw = Ret segments.
Proof.
  induction 1 as [| x l W _ (segments & C)]; simpl; [eauto |].
  destruct (format_segment_well_formed x W) as [seg F].
  rewrite F, C. simpl. eauto.
Qed.

(** C6.  When the backend returns a transcript whose segments each carry a
    finite numeric [start], the lookup returns the transcript result; its
    segments are the backend's, one for one and in the same order, each
    with [start] replaced by the formatted string and with the same keys
    and the same values under every other key.  No metadata request is
    made. *)
Theorem C6_transcript_formatting (url id : string) (raw : list pyval)
  (tr : list event) :
  _extract_video_id url = Ret id ->
  fetch_raw_data id TRANSCRIPT_LANGUAGES = Ret raw ->
  Forall well_formed_segment raw ->
  exists segments,
    get_youtube_video_transcript url tr
    = (Ret (transcript_result id segments), attempted tr id)
    /\ Forall2 formatted_from raw segments.
Proof.
  intros X F W.
  destruct (comprehension_well_formed raw W) as [segments C].
  exists segments. split.
  - apply lookup_transcript; [exact X |].
    unfold transcript_attempt. now rewrite F.
  - apply comprehension_Ret in C.
    eapply Forall2_impl; [| exact C]. intros a b. apply format_segment_Ret.
Qed.

(** On the fallback path the metadata request is sent exactly once, after
    the warning, and only log lines follow it; the result is never a
    transcript. *)
Lemma fallback_requests_once (url id : string) (e : exn) (tr : list event) :
  _extract_video_id url = Ret id ->
  transcript_attempt id = Raise e ->
  exists r after,
    get_youtube_video_transcript url tr
    = (Ret r,
       (attempted tr id
        ++ [ log_fallback e; HttpGet metadata_url (metadata_params id) ]
        ++ after)%list)
    /\ (forall ev, In ev after -> exists m, ev = Log ERROR m)
    /\ ((exists details, r = details_result id details)
        \/ (exists message, r = error_result message)).
Proof.
  intros X T. rewrite (lookup_fallback url id e tr X T).
  pose proof (get_video_details_trace id (attempted tr id ++ [log_fallback e])%list)
    as Tr.
  destruct (get_video_details id _) as [[details | e'] tr']; simpl in Tr; subst tr'.
  - exists (details_result id details), []. rewrite <- app_assoc.
    repeat split; [intros ev [] | left; eauto].
  - unfold failure_result. destruct (exn_is_ValueError e').
    + eexists. exists [log_invalid e']. rewrite <- !app_assoc.
      repeat split; [| right; eauto].
      intros ev [<- | []]. unfold log_invalid. eauto.
    + eexists. exists [log_failed url e']. rewrite <- !app_assoc.
      repeat split; [| right; eauto].
      intros ev [<- | []]. unfold log_failed. eauto.
Qed.

(** When [get_video_details] fails with an exception that is no
    [ValueError], as its own two failures are, the error message is
    "Failed to process request: " and the exception's text. *)
Lemma fallback_failure_message (url id : string) (e e' : exn)
  (tr tr' : list event) :
  _extract_video_id url = Ret id ->
  transcript_attempt id = Raise e ->
  get_video_details id (attempted tr id ++ [ log_fallback e ])%list
  = (Raise e', tr') ->
  exn_is_ValueError e' = false ->
  fst (get_youtube_video_transcript url tr)
  = Ret (error_result ("Failed to process request: " ++ exn_msg e')).
Proof.
  intros X T D C. rewrite (lookup_fallback url id e tr X T), D.
  unfold failure_result. now rewrite C.
Qed.

(** A lookup always leaves a mark on the trace. *)
Lemma lookup_leaves_trace (url : string) (tr : list event) :
  exists evs,
    evs <> [] /\ snd (get_youtube_video_transcript url tr) = (tr ++ evs)%list.
Proof.
  destruct (_extract_video_id url) as [id | e] eqn:X.
  - destruct (transcript_attempt id) as [segments | e] eqn:T.
    + rewrite (lookup_transcript url id segments tr X T).
      eexists. split; [| reflexivity]. discriminate.
    + destruct (fallback_requests_once url id e tr X T) as (r & after & E & _).
      rewrite E. unfold attempted. rewrite <- app_assoc.
      eexists. split; [| reflexivity]. discriminate.
  - rewrite (lookup_invalid url e tr X).
    eexists. split; [| reflexivity]. discriminate.
Qed.

(* ================================================================== *)
(** * [handle_call_tool] *)

Lemma handle_call_tool_no_url (arguments : list (string * string))
  (tr : list event) :
  not_ (arguments_get arguments "url") = true ->
  handle_call_tool tool_name arguments tr
  = (Ret [ text_content "Error: URL parameter is required" ], tr).
Proof.
  intros N. unfold handle_call_tool. rewrite String.eqb_refl, N. reflexivity.
Qed.

(** C8 (amended).  With no [url] argument the tool answers the plain text
    "Error: URL parameter is required"; with a [url] that is not the empty
    string it answers [json.dumps(result, indent=2)] of the lookup result,
    which is of one of the three shapes. *)
Theorem C8_tool_call_body (arguments : list (string * string))
  (tr : list event) :
  (arguments_get arguments "url" = None ->
     handle_call_tool tool_name arguments tr
     = (Ret [ text_content "Error: URL parameter is required" ], tr))
  /\ (forall url,
        arguments_get arguments "url" = Some url -> url <> "" ->
        exists r tr',
          get_youtube_video_transcript url tr = (Ret r, tr')
          /\ lookup_shape r
          /\ handle_call_tool tool_name arguments tr
             = (Ret [ text_content (json_dumps r 2) ], tr')).
Proof.
  split.
  - intros N. apply handle_call_tool_no_url. now rewrite N.
  - intros url G NE.
    destruct (lookup_returns url tr) as (r & tr' & L & S).
    exists r, tr'. split; [exact L |]. split; [exact S |].
    unfold handle_call_tool. rewrite String.eqb_refl, G.
    destruct url as [|c u]; [congruence |].
    cbn [not_ the_str]. unfold try_except, bind. rewrite L. reflexivity.
Qed.

(** C9.  A [url] argument that is the empty string gets the same answer as
    a missing one, the plain text "Error: URL parameter is required", and
    the trace is left as it was: nothing is logged and no backend is
    called, whereas every lookup leaves a mark on the trace.  Had the
    lookup run, it would have answered with the invalid-URL error. *)
Theorem C9_empty_url_is_missing (arguments : list (string * string))
  (tr : list event) :
  arguments_get arguments "url" = Some "" ->
  handle_call_tool tool_name arguments tr
  = (Ret [ text_content "Error: URL parameter is required" ], tr)
  /\ (forall url, snd (get_youtube_video_transcript url tr) <> tr)
  /\ fst (get_youtube_video_transcript "" tr)
     = Ret (error_result
              "Invalid YouTube URL: No valid YouTube video ID found in URL").
Proof.
  intros G. split; [| split].
  - apply handle_call_tool_no_url. now rewrite G.
  - intros url. destruct (lookup_leaves_trace url tr) as (evs & NE & ->).
    intros E. apply NE.
    apply (app_inv_head tr). now rewrite app_nil_r.
  - now rewrite (lookup_invalid "" (ValueError no_video_id) tr).
Qed.

(* ================================================================== *)
(** * Further properties of the server *)

(** X1.  What [_extract_video_id] returns is always an identifier, 11
    characters of the class, and it is a piece of the URL. *)
Theorem extract_returns_video_id (url id : string) :
  _extract_video_id url = Ret id ->
  is_video_id id /\ exists pre rest, url = pre ++ id ++ rest.
Proof.
  pure. intros H. apply extract_selected in H.
  destruct H as [(pre & (anchor & rest & _ & E & V) & _)
                | (_ & pre & mid & (q & rest & _ & E & _ & V) & _)].
  - split; [exact V |]. exists (pre ++ anchor), rest.
    now rewrite str_app_assoc.
  - split; [exact V |].
    exists (pre ++ "youtube.com/" ++ mid ++ String q "v="), rest.
    rewrite E, !str_app_assoc. reflexivity.
Qed.

(** X2.  A URL without an identifier never reaches a backend: the lookup
    answers with the invalid-URL error and its only effect is the one log
    line. *)
Theorem invalid_url_calls_no_backend (url : string) (e : exn) (tr : list event) :
  _extract_video_id url = Raise e ->
  get_youtube_video_transcript url tr
  = (Ret (error_result ("Invalid YouTube URL: " ++ no_video_id)),
     (tr ++ [ Log ERROR ("Invalid YouTube URL: " ++ no_video_id) ])%list).
Proof. intros X. now rewrite (lookup_invalid url e tr X). Qed.



(** X4.  A negative count of seconds does not fail either: the hours are
    not positive, so the text is the MM:SS of the count taken modulo one
    hour. *)
Theorem format_time_negative_wraps (t : Z) :
  (t < 0)%Z ->
  _format_time (PInt t) = _format_time (PInt (t mod 3600))
  /\ exists out, _format_time (PInt t) = Ret out /\ String.length out = 5.
Proof.
  only_int. intros N.
  assert (H1 : (t / 3600 >? 0)%Z = false).
  { rewrite Z.gtb_ltb. apply Z.ltb_ge. Z.div_mod_to_equations. lia. }
  assert (H2 : ((t mod 3600) / 3600 >? 0)%Z = false).
  { rewrite Z.gtb_ltb. apply Z.ltb_ge. Z.div_mod_to_equations. lia. }
  assert (M : (((t mod 3600) mod 3600) / 60 = (t mod 3600) / 60)%Z).
  { Z.div_mod_to_equations. lia. }
  assert (S : ((t mod 3600) mod 60 = t mod 60)%Z).
  { Z.div_mod_to_equations. lia. }
  unfold _format_time, py_int, obind. rewrite H1, H2, M, S.
  split; [reflexivity |]. eexists. split; [reflexivity |].
  assert (Bm : (0 <= (t mod 3600) / 60 < 60)%Z) by (Z.div_mod_to_equations; lia).
  assert (Bs : (0 <= t mod 60 < 60)%Z) by (Z.div_mod_to_equations; lia).
  pose proof (clock_field_small _ _ (format_02d_field _ (proj1 Bm)) ltac:(lia)) as Lm.
  pose proof (clock_field_small _ _ (format_02d_field _ (proj1 Bs)) ltac:(lia)) as Ls.
  rewrite !str_length_app, Lm, Ls. reflexivity.
Qed.

(** X5.  The tool-call boundary never raises: whatever the tool name and
    the arguments, the answer is one text content; for a name other than
    the tool's it is "Unknown tool: " and the name, with no effect. *)
Theorem handle_call_tool_returns (name : string)
  (arguments : list (string * string)) (tr : list event) :
  (exists body tr',
     handle_call_tool name arguments tr = (Ret [ text_content body ], tr'))
  /\ (name <> tool_name ->
      handle_call_tool name arguments tr
      = (Ret [ text_content ("Unknown tool: " ++ name) ], tr)).
Proof.
  unfold handle_call_tool.
  destruct (String.eqb_spec name tool_name) as [-> | NE].
  - split; [| congruence].
    destruct (not_ (arguments_get arguments "url")); [do 2 eexists; reflexivity |].
    destruct (lookup_returns (the_str (arguments_get arguments "url")) tr)
      as (r & tr' & L & _).
    unfold try_except, bind. rewrite L. do 2 eexists. reflexivity.
  - split; [do 2 eexists |]; reflexivity.
Qed.

(* ------------------------------------------------------------------ *)
(** ** The language list read at start-up *)

Lemma split_nonempty (sep : ascii) (s : string) : split sep s <> [].
Proof.
  pure. destruct s as [|c s]; simpl; [discriminate |].
  destruct (Ascii.eqb c sep); [discriminate |].
  destruct (split sep s); discriminate.
Qed.

Lemma split_pieces (sep : ascii) (s : string) :
  String.concat (String sep "") (split sep s) = s
  /\ Forall (fun piece => Str.all (fun c => negb (Ascii.eqb c sep)) piece = true)
       (split sep s).
Proof.
  pure. induction s as [|c s [J N]]; simpl; [split; [reflexivity | repeat constructor] |].
  pose proof (split_nonempty sep s) as NE.
  destruct (Ascii.eqb_spec c sep) as [-> | D].
  - destruct (split sep s) as [|piece rest] eqn:E; [congruence |].
    split; [| constructor; [reflexivity | exact N]].
    rewrite <- J. reflexivity.
  - destruct (split sep s) as [|piece rest] eqn:E; [congruence |].
    inversion N as [| ? ? Np Nr]; subst. split.
    + destruct rest as [|p2 rest]; reflexivity.
    + constructor; [| exact Nr]. simpl. rewrite Np.
      destruct (Ascii.eqb_spec c sep); [contradiction | reflexivity].
Qed.

Lemma rstrip_keeps_head (c : ascii) (s : string) :
  isspace c = false -> exists r, rstrip (String c s) = String c r.
Proof.
  pure. intros H. cbn [rstrip]. rewrite H. destruct (rstrip s); eauto.
Qed.

Lemma lstrip_head (s : string) :
  match lstrip s with
  | String c _ => isspace c = false
  | EmptyString => True
  end.
Proof.
  pure. induction s as [|c s IH]; simpl; [exact I |].
  destruct (isspace c) eqn:E; [exact IH | exact E].
Qed.

Lemma lstrip_fixed (c : ascii) (s : string) :
  isspace c = false -> lstrip (String c s) = String c s.
Proof. pure. intros H. simpl. now rewrite H. Qed.

Lemma rstrip_idempotent (s : string) : rstrip (rstrip s) = rstrip s.
Proof.
  pure. induction s as [|c s IH]; [reflexivity |].
  cbn [rstrip]. destruct (rstrip s) as [|d r] eqn:E.
  - destruct (isspace c) eqn:Sc; [reflexivity |].
    cbn [rstrip]. now rewrite Sc.
  - change (rstrip (String c (String d r)))
      with (match rstrip (String d r) with
            | EmptyString => if isspace c then EmptyString else String c EmptyString
            | x => String c x
            end).
    now rewrite IH.
Qed.

Lemma strip_idempotent (s : string) : strip (strip s) = strip s.
Proof.
  pure. unfold strip. pose proof (lstrip_head s) as H.
  destruct (lstrip s) as [|c r]; [reflexivity |].
  destruct (rstrip_keeps_head c r H) as [r' E].
  rewrite E, (lstrip_fixed c r' H), <- E. apply rstrip_idempotent.
Qed.

Lemma lstrip_all (p : ascii -> bool) (s : string) :
  Str.all p s = true -> Str.all p (lstrip s) = true.
Proof.
  pure. induction s as [|c s IH]; simpl; [auto |].
  intros A. destruct (isspace c); [| exact A].
  apply andb_true_iff in A as [_ A]. auto.
Qed.

Lemma rstrip_all (p : ascii -> bool) (s : string) :
  Str.all p s = true -> Str.all p (rstrip s) = true.
Proof.
  pure. induction s as [|c s IH]; [auto |].
  cbn [Str.all rstrip]. intros A. apply andb_true_iff in A as [Pc A].
  specialize (IH A). destruct (rstrip s) as [|d r].
  - destruct (isspace c); [reflexivity |]. simpl. now rewrite Pc.
  - cbn [Str.all]. cbn [Str.all] in IH. now rewrite Pc, IH.
Qed.

(** X7.  The language list is ["en"] when the variable is unset; it is
    never empty, and every entry is free of commas and of white space at
    either end (stripping it again changes nothing). *)
Theorem transcript_languages_entries (TRANSCRIPT_LANGUAGE : option string) :
  transcript_languages None = [ "en" ]
  /\ transcript_languages TRANSCRIPT_LANGUAGE <> []
  /\ Forall (fun lang =>
       strip lang = lang
       /\ Str.all (fun c => negb (Ascii.eqb c ","%char)) lang = true)
       (transcript_languages TRANSCRIPT_LANGUAGE).
Proof.
  pure. split; [reflexivity |]. unfold transcript_languages.
  set (s := getenv TRANSCRIPT_LANGUAGE "en").
  split.
  - pose proof (split_nonempty "," s) as NE.
    destruct (split "," s); [congruence | discriminate].
  - apply Forall_map. eapply Forall_impl; [| exact (proj2 (split_pieces "," s))].
    intros piece N. split; [apply strip_idempotent |].
    unfold strip. now apply rstrip_all, lstrip_all.
Qed.

(** X6.  Splitting loses nothing: there is always at least one piece,
    joining the pieces with the separator gives the text back, and no piece
    contains the separator. *)
Theorem split_join (sep : ascii) (s : string) :
  split sep s <> []
  /\ String.concat (String sep "") (split sep s) = s
  /\ Forall (fun piece => Str.all (fun c => negb (Ascii.eqb c sep)) piece = true)
       (split sep s).
Proof. pure. split; [apply split_nonempty | apply split_pieces]. Qed.

(** X8.  Whatever the metadata backend answers or raises,
    [get_video_details] performs exactly one effect: the GET of the videos
    endpoint with the parts, the identifier and the key. *)
Theorem get_video_details_one_request (video_id : string) (tr : list event) :
  snd (get_video_details video_id tr)
  = (tr ++ [ HttpGet "https://www.googleapis.com/youtube/v3/videos"
               [ ("part", "snippet,statistics,contentDetails");
                 ("id", video_id);
                 ("key", YOUTUBE_API_KEY) ] ])%list.
Proof. apply get_video_details_trace. Qed.

(** X9.  When the transcript attempt fails (the fetch raises, or a segment
    cannot be formatted), the lookup logs one warning, sends the metadata
    request exactly once, logs at most error lines after it, and answers
    with the details or with an error, never with a transcript. *)
Theorem fallback_asks_metadata_once (url id : string) (e : exn)
  (tr : list event) :
  _extract_video_id url = Ret id ->
  transcript_attempt id = Raise e ->
  exists r after,
    get_youtube_video_transcript url tr
    = (Ret r,
       (attempted tr id
        ++ [ log_fallback e; HttpGet metadata_url (metadata_params id) ]
        ++ after)%list)
    /\ (forall ev, In ev after -> exists m, ev = Log ERROR m)
    /\ ((exists details, r = details_result id details)
        \/ (exists message, r = error_result message)).
Proof. apply fallback_requests_once. Qed.

(** X10.  A segment that is formatted keeps its keys in their order and
    its values under every key but [start], which holds the display
    string of the old [start]. *)
Theorem format_segment_frame (raw seg : pyval) :
  format_segment raw = Ret seg -> formatted_from raw seg.
Proof. apply format_segment_Ret. Qed.

(** X11.  When [get_video_details] fails with an exception that is no
    [ValueError], as the two it raises itself are, the lookup answers
    "Failed to process request: " and the exception's text. *)
Theorem fallback_failure_is_reported (url id : string) (e e' : exn)
  (tr tr' : list event) :
  _extract_video_id url = Ret id ->
  transcript_attempt id = Raise e ->
  get_video_details id (attempted tr id ++ [ log_fallback e ])%list
  = (Raise e', tr') ->
  exn_is_ValueError e' = false ->
  fst (get_youtube_video_transcript url tr)
  = Ret (error_result ("Failed to process request: " ++ exn_msg e')).
Proof. apply fallback_failure_message. Qed.

End Server.

(* ================================================================== *)
(** * The scenarios, on sample backends *)

(** C4 at 59.9 seconds. *)
Lemma C4_format_time_clock_witness :
  exists t out,
    (inject_Z t <= 8430175552484147 # 140737488355328)%Q
    /\ (8430175552484147 # 140737488355328 < inject_Z (t + 1))%Q
    /\ _format_time no_int (PFloat float_59_9) = Ret out /\ clock_text t out.
Proof.
  apply (proj1 (C4_format_time_clock no_int) float_59_9).
  - reflexivity.
  - unfold Qle; simpl; lia.
Defined.

(** C5, as stated, fails for the lexicographic order of strings: 3599.0 is
    below 3600.0, yet its text 59:59 comes after 01:00:00. *)
Lemma C5_order_broken_at_one_hour :
  exists va vb,
    finite_value float_3599 va /\ finite_value float_3600 vb
    /\ (va == 3599)%Q /\ (vb == 3600)%Q /\ (0 <= va)%Q /\ (va <= vb)%Q
    /\ _format_time no_int (PFloat float_3599) = Ret "59:59"
    /\ _format_time no_int (PFloat float_3600) = Ret "01:00:00"
    /\ String.leb "59:59" "01:00:00" = false.
Proof.
  eexists. eexists.
  split; [reflexivity |]. split; [reflexivity |].
  repeat split; try reflexivity; unfold Qle; simpl; lia.
Qed.

(** C5 at 59.9 and 3599 seconds. *)
Lemma C5_format_time_order_witness :
  exists sa sb,
    _format_time no_int (PFloat float_59_9) = Ret sa
    /\ _format_time no_int (PFloat float_3599) = Ret sb
    /\ String.length sa <= String.length sb
    /\ (String.length sa = String.length sb -> String.leb sa sb = true)
    /\ ((7914284696731648 # 2199023255552 < 3600)%Q -> String.leb sa sb = true).
Proof.
  apply (C5_format_time_order no_int float_59_9 float_3599
           (8430175552484147 # 140737488355328)
           (7914284696731648 # 2199023255552)).
  - reflexivity.
  - reflexivity.
  - unfold Qle; simpl; lia.
  - unfold Qle; simpl; lia.
Defined.

(** C7 on a response whose only item has a title and nothing else. *)
Lemma C7_get_video_details_witness :
  get_video_details "KEY" metadata_ok "dQw4w9WgXcQ" []
  = (Ret (PDict
       [ ("title", PStr "Never Gonna Give You Up");
         ("description", PStr ""); ("channel_title", PStr "");
         ("published_at", PStr ""); ("duration", PStr "");
         ("view_count", PStr "0"); ("like_count", PStr "0");
         ("comment_count", PStr "0") ]),
     [ HttpGet metadata_url (metadata_params "KEY" "dQw4w9WgXcQ") ]).
Proof.
  refine (proj2 (proj2 (C7_get_video_details "KEY" metadata_ok "dQw4w9WgXcQ" []
            (mkResponse 200 (Ret (PDict [ ("items", PList [ rick_item ]) ])))
            eq_refl))
          [ ("items", PList [ rick_item ]) ]
          [ ("snippet", PDict [ ("title", PStr "Never Gonna Give You Up") ]) ]
          [] [ ("title", PStr "Never Gonna Give You Up") ] [] []
          eq_refl eq_refl eq_refl _ _ _).
  - right. reflexivity.
  - left. split; reflexivity.
  - left. split; reflexivity.
Defined.

(** C6 on the one-segment transcript of the specification's scenario. *)
Lemma C6_transcript_formatting_witness :
  exists segments,
    get_youtube_video_transcript "KEY" ["en"] transcript_ok metadata_ok no_int
      rick_url []
    = (Ret (transcript_result "dQw4w9WgXcQ" segments),
       attempted ["en"] [] "dQw4w9WgXcQ")
    /\ Forall2 (formatted_from no_int) [ hi_segment ] segments.
Proof.
  apply (C6_transcript_formatting "KEY" ["en"] transcript_ok metadata_ok no_int
           rick_url "dQw4w9WgXcQ" [ hi_segment ] []).
  - reflexivity.
  - reflexivity.
  - constructor; [| constructor].
    exists [ ("text", PStr "Hi"); ("start", PFloat float_5_0);
             ("duration", PFloat float_2_0) ], (PFloat float_5_0).
    split; [reflexivity |]. split; [reflexivity |].
    left. exists float_5_0, (5629499534213120 # 1125899906842624)%Q.
    split; reflexivity.
Defined.

(** The first scenario of the specification, in full. *)
Lemma scenario_transcript :
  fst (get_youtube_video_transcript "KEY" ["en"] transcript_ok metadata_ok no_int
         rick_url [])
  = Ret (PDict
      [ ("video_id", PStr "dQw4w9WgXcQ");
        ("transcript",
         PList [ PDict [ ("text", PStr "Hi"); ("start", PStr "00:05");
                         ("duration", PFloat float_2_0) ] ]) ]).
Proof. reflexivity. Qed.

(** The second scenario: the transcript backend fails, the metadata
    backend answers. *)
Lemma scenario_fallback :
  fst (get_youtube_video_transcript "KEY" ["en"] transcript_blocked metadata_ok
         no_int rick_url [])
  = Ret (details_result "dQw4w9WgXcQ"
      (PDict
        [ ("title", PStr "Never Gonna Give You Up");
          ("description", PStr ""); ("channel_title", PStr "");
          ("published_at", PStr ""); ("duration", PStr "");
          ("view_count", PStr "0"); ("like_count", PStr "0");
          ("comment_count", PStr "0") ])).
Proof. reflexivity. Qed.

(** C3 fails on the code.  The transcript backend fails and the metadata
    backend answers 200 with a body that is not JSON, so [response.json()]
    raises a [ValueError] (a [JSONDecodeError]).  The metadata request is
    made once and no transcript is returned, but the outer
    [except ValueError] clause takes the exception: the message reads
    "Invalid YouTube URL: ..." where the claim has "Failed to process
    request: ...". *)
Lemma C3_metadata_ValueError_mislabelled :
  get_youtube_video_transcript "KEY" ["en"] transcript_blocked metadata_garbled
    no_int rick_url []
  = (Ret (error_result
       "Invalid YouTube URL: Expecting value: line 1 column 1 (char 0)"),
     [ Log INFO "Executing tool: get_video_transcript with video_id: dQw4w9WgXcQ";
       TranscriptFetch "dQw4w9WgXcQ" ["en"];
       Log WARNING
         "Error fetching transcript: Could not retrieve a transcript. Falling back to video details.";
       HttpGet metadata_url (metadata_params "KEY" "dQw4w9WgXcQ");
       Log ERROR "Invalid YouTube URL: Expecting value: line 1 column 1 (char 0)" ])
  /\ error_result "Invalid YouTube URL: Expecting value: line 1 column 1 (char 0)"
     <> error_result
          "Failed to process request: Expecting value: line 1 column 1 (char 0)".
Proof. split; [reflexivity | discriminate]. Qed.

(** C8, as stated, fails: a [url] that is supplied but empty is answered
    with the plain text, not with the serialization of a lookup result,
    whatever the serializer. *)
Lemma C8_empty_url_not_serialized :
  arguments_get [ ("url", "") ] "url" = Some ""
  /\ handle_call_tool "KEY" ["en"] transcript_ok metadata_ok no_json no_int
       tool_name [ ("url", "") ] []
     = (Ret [ text_content "Error: URL parameter is required" ], [])
  /\ ~ (forall (json_dumps : pyval -> nat -> string) arguments url tr,
          arguments_get arguments "url" = Some url ->
          exists r tr',
            handle_call_tool "KEY" ["en"] transcript_ok metadata_ok json_dumps
              no_int tool_name arguments tr
            = (Ret [ text_content (json_dumps r 2) ], tr')).
Proof.
  split; [reflexivity |]. split; [reflexivity |].
  intros H.
  destruct (H no_json [ ("url", "") ] "" [] eq_refl) as (r & tr' & E).
  discriminate E.
Qed.

(** C8 on a call that carries the scenario's URL. *)
Lemma C8_tool_call_body_witness :
  exists r tr',
    get_youtube_video_transcript "KEY" ["en"] transcript_ok metadata_ok no_int
      rick_url [] = (Ret r, tr')
    /\ lookup_shape ["en"] transcript_ok no_int r
    /\ handle_call_tool "KEY" ["en"] transcript_ok metadata_ok no_json no_int
         tool_name [ ("url", rick_url) ] []
       = (Ret [ text_content (no_json r 2) ], tr').
Proof.
  apply (proj2 (C8_tool_call_body "KEY" ["en"] transcript_ok metadata_ok no_json
                  no_int [ ("url", rick_url) ] []) rick_url).
  - reflexivity.
  - discriminate.
Defined.

(** C9 on a call whose [url] is the empty string. *)
Lemma C9_empty_url_is_missing_witness :
  handle_call_tool "KEY" ["en"] transcript_ok metadata_ok no_json no_int
    tool_name [ ("url", "") ] []
  = (Ret [ text_content "Error: URL parameter is required" ], []).
Proof.
  apply (C9_empty_url_is_missing "KEY" ["en"] transcript_ok metadata_ok no_json
           no_int [ ("url", "") ] []).
  reflexivity.
Defined.

(* ------------------------------------------------------------------ *)
(** ** The further properties on the sample backends *)

Lemma extract_returns_video_id_witness :
  is_video_id "dQw4w9WgXcQ"
  /\ exists pre rest, rick_url = pre ++ "dQw4w9WgXcQ" ++ rest.
Proof.
  apply (extract_returns_video_id rick_url "dQw4w9WgXcQ"). reflexivity.
Defined.

Lemma invalid_url_calls_no_backend_witness :
  get_youtube_video_transcript "KEY" ["en"] transcript_ok metadata_ok no_int
    "not a url" []
  = (Ret (error_result ("Invalid YouTube URL: " ++ no_video_id)),
     [ Log ERROR ("Invalid YouTube URL: " ++ no_video_id) ]).
Proof.
  apply (invalid_url_calls_no_backend "KEY" ["en"] transcript_ok metadata_ok
           no_int "not a url" (ValueError no_video_id) []).
  reflexivity.
Defined.


Lemma format_time_negative_wraps_witness :
  _format_time no_int (PInt (-5)) = _format_time no_int (PInt ((-5) mod 3600))
  /\ exists out,
       _format_time no_int (PInt (-5)) = Ret out /\ String.length out = 5.
Proof. apply (format_time_negative_wraps no_int (-5)). lia. Defined.

Lemma fallback_asks_metadata_once_witness :
  exists r after,
    get_youtube_video_transcript "KEY" ["en"] transcript_blocked metadata_404
      no_int rick_url []
    = (Ret r,
       (attempted ["en"] [] "dQw4w9WgXcQ"
        ++ [ log_fallback (Exception_ "Could not retrieve a transcript");
             HttpGet metadata_url (metadata_params "KEY" "dQw4w9WgXcQ") ]
        ++ after)%list)
    /\ (forall ev, In ev after -> exists m, ev = Log ERROR m)
    /\ ((exists details, r = details_result "dQw4w9WgXcQ" details)
        \/ (exists message, r = error_result message)).
Proof.
  apply (fallback_asks_metadata_once "KEY" ["en"] transcript_blocked metadata_404
           no_int rick_url "dQw4w9WgXcQ"
           (Exception_ "Could not retrieve a transcript") []).
  - reflexivity.
  - reflexivity.
Defined.

Lemma fallback_failure_is_reported_witness :
  fst (get_youtube_video_transcript "KEY" ["en"] transcript_blocked metadata_404
         no_int rick_url [])
  = Ret (error_result
      ("Failed to process request: " ++ exn_msg (BackendError 404))).
Proof.
  refine (fallback_failure_is_reported "KEY" ["en"] transcript_blocked metadata_404
            no_int rick_url "dQw4w9WgXcQ"
            (Exception_ "Could not retrieve a transcript") (BackendError 404)
            [] _ eq_refl eq_refl eq_refl eq_refl).
Defined.

Lemma format_segment_frame_witness :
  formatted_from no_int hi_segment
    (PDict [ ("text", PStr "Hi"); ("start", PStr "00:05");
             ("duration", PFloat float_2_0) ]).
Proof. apply (format_segment_frame no_int hi_segment). reflexivity. Defined.
